(** * torchtext.data.iterator: batching, pooling, checkpointed iteration
      and BPTT windowing

    A shallow embedding of [src/torchtext/data/iterator.py].

    Conventions.
    - Python lists are [list]; a generator is modelled by the list of the
      values it yields, together with the exception that ends it early when
      there is one (record [emitted]).
    - Python integers are [Z]; [len l] is [Z.of_nat (length l)].  True
      division followed by [math.ceil] is computed in exact rationals
      ([Qceiling]); the floating-point quotients of the source have the
      same ceiling as long as the lengths are below 2^50.
    - Objects that the source mutates ([self], the shuffler) are threaded
      explicitly: a method takes the object and returns the updated one.
    - Examples are values of an abstract type [A]; [sort_key] returns an
      integer key.
    - The collaborators of the module that live in other files ([Batch],
      [Dataset], the fields, [RandomShuffler]) are reduced to what the
      iterator reads from them; each reduction is described where it is
      made. *)

From Stdlib Require Import List ZArith Lia Bool Permutation Sorted.
From Stdlib Require Import QArith Qround.
From Stdlib Require String.
Import ListNotations.
Import String.StringSyntax.

Delimit Scope string_scope with string.

Local Open Scope Z_scope.

Set Implicit Arguments.

(** * Part I: the model *)

(** ** Python exceptions and generator outcomes *)

Inductive pyexn : Type :=
| TypeError
| KeyError (key : String.string)
| NotImplementedError
| ZeroDivisionError
| RuntimeError.

(** What a generator produced: the values it yielded, in order, and the
    exception that ended it, if any. *)
Record emitted (B : Type) : Type := Emitted {
  yielded : list B;
  raised : option pyexn
}.

Arguments Emitted {B} _ _.

Definition finished {B} (l : list B) : emitted B := Emitted l None.

Definition failed {B} (e : pyexn) : emitted B := Emitted [] (Some e).

(** Yield every element of [l], then go on as [k]. *)
Definition yield_all {B} (l : list B) (k : emitted B) : emitted B :=
  Emitted (l ++ yielded k) (raised k).

(** A value that is either [None] or a list, for the callables whose result
    the source iterates over. *)
Inductive pyobj (B : Type) : Type :=
| PyNone
| PyList (l : list B).

Arguments PyNone {B}.
Arguments PyList {B} _.

(** [for b in o]: iterating [None] raises [TypeError]. *)
Definition py_iter {B} (o : pyobj B) : pyexn + list B :=
  match o with
  | PyNone => inl TypeError
  | PyList l => inr l
  end.

(** ** Lengths and slices *)

Definition len {B} (l : list B) : Z := Z.of_nat (length l).

(** [l[:-1]] *)
Definition slice_but_last {B} (l : list B) : list B :=
  firstn (length l - 1)%nat l.

(** [l[-1:]] *)
Definition slice_last {B} (l : list B) : list B :=
  skipn (length l - 1)%nat l.

(** A slice bound as Python resolves it against a sequence of length [n]:
    a negative bound counts from the end, and the result is clamped to
    [0..n]. *)
Definition slice_bound (n i : Z) : Z :=
  if i <? 0 then Z.max 0 (i + n) else Z.min i n.

(** [l[a:b]] *)
Definition py_slice {B} (l : list B) (a b : Z) : list B :=
  let a' := slice_bound (len l) a in
  let b' := slice_bound (len l) b in
  firstn (Z.to_nat (b' - a')) (skipn (Z.to_nat a') l).

(** [math.ceil(a / b)] for integers [a] and [b <> 0], with true division. *)
Definition ceil_div (a b : Z) : Z :=
  Qceiling (inject_Z a / inject_Z b).

(** ** The batching primitive: [batch] *)

Section Batch.
Context {A : Type}.

(** [batch_size_fn(new, count, sofar)] *)
Definition size_fn : Type := A -> Z -> Z -> Z.

(** The local default of [batch]: [return count]. *)
Definition count_size_fn : size_fn := fun _ count _ => count.

Definition is_empty (l : list A) : bool :=
  match l with [] => true | _ => false end.

(** The [for ex in data] loop of [batch], with its two local variables
    [minibatch] and [size_so_far]; the result lists the yielded batches,
    ending with the one yielded after the loop when [minibatch] is not
    empty.  A yielded list is never touched again by the generator, which
    rebinds [minibatch] or has yielded a copy: what a consumer does to a
    batch in place leaves the later batches as they are. *)
Fixpoint batch_loop (fn : size_fn) (batch_size : Z) (data : list A)
         (minibatch : list A) (size_so_far : Z) : list (list A) :=
  match data with
  | [] => if is_empty minibatch then [] else [minibatch]
  | ex :: rest =>
      let minibatch := minibatch ++ [ex] in
      let size_so_far := fn ex (len minibatch) size_so_far in
      if size_so_far =? batch_size then
        minibatch :: batch_loop fn batch_size rest [] 0
      else if size_so_far >? batch_size then
        slice_but_last minibatch
          :: batch_loop fn batch_size rest (slice_last minibatch) (fn ex 1 0)
      else
        batch_loop fn batch_size rest minibatch size_so_far
  end.

Definition batch (data : list A) (batch_size : Z)
           (batch_size_fn : option size_fn) : list (list A) :=
  let fn := match batch_size_fn with
            | None => count_size_fn
            | Some f => f
            end in
  batch_loop fn batch_size data [] 0.

End Batch.

Arguments size_fn A : clear implicits.

(** ** Sorting by key

    [sorted(p, key=key)] and [list.sort(key=key)] are stable and ascending;
    with [reverse=True] the sort is descending and still stable.  A stable
    sort has one possible result, which the insertions below compute. *)

Section Sorting.
Context {A : Type}.
Variable key : A -> Z.

Definition key_le (a b : A) : Prop := key a <= key b.


(** Non-decreasing, respectively non-increasing, by [key]. *)
Definition ascending (l : list A) : Prop := StronglySorted key_le l.


Fixpoint insert_asc (x : A) (l : list A) : list A :=
  match l with
  | [] => [x]
  | y :: l' => if key x <=? key y then x :: l else y :: insert_asc x l'
  end.

Fixpoint insert_desc (x : A) (l : list A) : list A :=
  match l with
  | [] => [x]
  | y :: l' => if key y <=? key x then x :: l else y :: insert_desc x l'
  end.

(** [sorted(l, key=key)] *)
Definition sorted (l : list A) : list A := fold_right insert_asc [] l.

(** [l.sort(key=key, reverse=True)] *)
Definition sort_reverse (l : list A) : list A := fold_right insert_desc [] l.

End Sorting.

(** ** The shuffler, [pool] and the [Iterator] classes *)

Section Shuffled.
Context {A : Type}.

(** The state of Python's random generator, as [random.getstate()] returns
    it. *)
Variable RState : Type.

(** [random.sample(data, len(data))] run from a given generator state: the
    indices, into [data], of the elements it returns, and the state it
    leaves.  The draw depends on the state and on the length only. *)
Variable sample : RState -> nat -> list nat * RState.

(** Modelled from the spec: [RandomShuffler] of [.utils], which is not
    among the sources, is "a seedable pseudo-random permutation generator
    whose internal state can be snapshotted and restored".  The iterator
    reads and writes its [random_state] property and calls it on a
    sequence; the object is reduced to the state it holds, which is [None]
    once a checkpoint without a state has been restored into it. *)
Definition RandomShuffler : Type := option RState.

(** [[data[i] for i in idx]], for indices within range. *)
Definition pick {B} (idx : list nat) (data : list B) : list B :=
  flat_map (fun i => match nth_error data i with
                     | Some x => [x]
                     | None => []
                     end) idx.

(** Modelled from the spec: the call [random_shuffler(data)] of the absent
    [RandomShuffler] returns a new list, a draw of [random.sample] made
    under the shuffler's own state, which advances.  A shuffler whose
    state is [None] has no state to draw from: Python's
    [random.setstate(None)] raises [TypeError]. *)
Definition RandomShuffler_call {B} (rs : RandomShuffler) (data : list B)
  : pyexn + (list B * RandomShuffler) :=
  match rs with
  | None => inl TypeError
  | Some s => let (idx, s') := sample s (length data) in
              inr (pick idx data, Some s')
  end.

(** [random.shuffle(x)] of the Python library permutes [x] in place and
    returns [None]. *)
Definition random_shuffle {B} (x : list B) : pyobj B := PyNone.

(** The call [random_shuffler(l)] inside [pool], where [random_shuffler]
    is the injected shuffler or, when the argument was [None], the
    fallback [random.shuffle]. *)
Definition call_shuffler {B} (random_shuffler : option RandomShuffler)
           (l : list B) : pyexn + (pyobj B * option RandomShuffler) :=
  match random_shuffler with
  | None => inr (random_shuffle l, None)
  | Some rs => match RandomShuffler_call rs l with
               | inl e => inl e
               | inr (l', rs') => inr (PyList l', Some rs')
               end
  end.

(** The body of [pool]'s loop over the windows [p].  The shuffler is the
    only state; it is returned as the generator leaves it. *)
Fixpoint pool_windows (windows : list (list A)) (batch_size : Z)
         (key : A -> Z) (batch_size_fn : option (size_fn A))
         (random_shuffler : option RandomShuffler)
         (shuffle sort_within_batch : bool)
  : emitted (list A) * option RandomShuffler :=
  match windows with
  | [] => (finished [], random_shuffler)
  | p :: rest =>
      let p := if sort_within_batch then sorted key p else p in
      let p_batch := batch p batch_size batch_size_fn in
      if shuffle then
        match call_shuffler random_shuffler p_batch with
        | inl e => (failed e, random_shuffler)
        | inr (o, random_shuffler) =>
            match py_iter o with
            | inl e => (failed e, random_shuffler)
            | inr bs =>
                let (k, rs) := pool_windows rest batch_size key batch_size_fn
                                 random_shuffler shuffle sort_within_batch in
                (yield_all bs k, rs)
            end
        end
      else
        let (k, rs) := pool_windows rest batch_size key batch_size_fn
                         random_shuffler shuffle sort_within_batch in
        (yield_all p_batch k, rs)
  end.

Definition pool (data : list A) (batch_size : Z) (key : A -> Z)
           (batch_size_fn : option (size_fn A))
           (random_shuffler : option RandomShuffler)
           (shuffle sort_within_batch : bool) (lookahead : Z)
  : emitted (list A) * option RandomShuffler :=
  pool_windows (batch data (batch_size * lookahead) batch_size_fn)
    batch_size key batch_size_fn random_shuffler shuffle sort_within_batch.

(** The defaults of [pool]'s keyword arguments. *)
Definition pool_default_size_fn : option (size_fn A) := Some count_size_fn.

Definition pool_default_lookahead : Z := 100.

(** *** The iterator object *)

(** Which [create_batches] the object has. *)
Inductive iterator_class : Type :=
| IteratorClass
| BucketIteratorClass.

(** The checkpoint record, a dict with three keys; a field is [None] when
    the dict has no such key.  [random_state_this_epoch], when present, is
    a generator state or Python's [None]. *)
Record StateDict : Type := {
  sd_iterations : option Z;
  sd_iterations_this_epoch : option Z;
  sd_random_state_this_epoch : option (option RState)
}.

(** The attributes of [self].  [device] plays no part in what is batched
    and is left out; a [Batch] is represented by the minibatch it is built
    from.  [batches] holds what the generator stored by [create_batches]
    yields. *)
Record Iterator : Type := {
  cls : iterator_class;
  dataset : list A;
  batch_size : Z;
  batch_size_fn : option (size_fn A);
  sort_key : A -> Z;
  train : bool;
  repeat : bool;
  shuffle : bool;
  sort : bool;
  sort_within_batch : bool;
  random_shuffler : RandomShuffler;
  iterations : Z;
  _iterations_this_epoch : Z;
  _random_state_this_epoch : option RState;
  _restored_from_state : bool;
  batches : emitted (list A)
}.

Definition set_random_shuffler (self : Iterator) (v : RandomShuffler) :=
  {| cls := cls self; dataset := dataset self; batch_size := batch_size self;
     batch_size_fn := batch_size_fn self; sort_key := sort_key self;
     train := train self; repeat := repeat self; shuffle := shuffle self;
     sort := sort self; sort_within_batch := sort_within_batch self;
     random_shuffler := v;
     iterations := iterations self;
     _iterations_this_epoch := _iterations_this_epoch self;
     _random_state_this_epoch := _random_state_this_epoch self;
     _restored_from_state := _restored_from_state self;
     batches := batches self |}.

Definition set_iterations (self : Iterator) (v : Z) :=
  {| cls := cls self; dataset := dataset self; batch_size := batch_size self;
     batch_size_fn := batch_size_fn self; sort_key := sort_key self;
     train := train self; repeat := repeat self; shuffle := shuffle self;
     sort := sort self; sort_within_batch := sort_within_batch self;
     random_shuffler := random_shuffler self;
     iterations := v;
     _iterations_this_epoch := _iterations_this_epoch self;
     _random_state_this_epoch := _random_state_this_epoch self;
     _restored_from_state := _restored_from_state self;
     batches := batches self |}.

Definition set_iterations_this_epoch (self : Iterator) (v : Z) :=
  {| cls := cls self; dataset := dataset self; batch_size := batch_size self;
     batch_size_fn := batch_size_fn self; sort_key := sort_key self;
     train := train self; repeat := repeat self; shuffle := shuffle self;
     sort := sort self; sort_within_batch := sort_within_batch self;
     random_shuffler := random_shuffler self;
     iterations := iterations self;
     _iterations_this_epoch := v;
     _random_state_this_epoch := _random_state_this_epoch self;
     _restored_from_state := _restored_from_state self;
     batches := batches self |}.

Definition set_random_state_this_epoch (self : Iterator) (v : option RState) :=
  {| cls := cls self; dataset := dataset self; batch_size := batch_size self;
     batch_size_fn := batch_size_fn self; sort_key := sort_key self;
     train := train self; repeat := repeat self; shuffle := shuffle self;
     sort := sort self; sort_within_batch := sort_within_batch self;
     random_shuffler := random_shuffler self;
     iterations := iterations self;
     _iterations_this_epoch := _iterations_this_epoch self;
     _random_state_this_epoch := v;
     _restored_from_state := _restored_from_state self;
     batches := batches self |}.

Definition set_restored_from_state (self : Iterator) (v : bool) :=
  {| cls := cls self; dataset := dataset self; batch_size := batch_size self;
     batch_size_fn := batch_size_fn self; sort_key := sort_key self;
     train := train self; repeat := repeat self; shuffle := shuffle self;
     sort := sort self; sort_within_batch := sort_within_batch self;
     random_shuffler := random_shuffler self;
     iterations := iterations self;
     _iterations_this_epoch := _iterations_this_epoch self;
     _random_state_this_epoch := _random_state_this_epoch self;
     _restored_from_state := v;
     batches := batches self |}.

Definition set_batches (self : Iterator) (v : emitted (list A)) :=
  {| cls := cls self; dataset := dataset self; batch_size := batch_size self;
     batch_size_fn := batch_size_fn self; sort_key := sort_key self;
     train := train self; repeat := repeat self; shuffle := shuffle self;
     sort := sort self; sort_within_batch := sort_within_batch self;
     random_shuffler := random_shuffler self;
     iterations := iterations self;
     _iterations_this_epoch := _iterations_this_epoch self;
     _random_state_this_epoch := _random_state_this_epoch self;
     _restored_from_state := _restored_from_state self;
     batches := v |}.

(** [Iterator.__init__].  [dataset_sort_key] is [dataset.sort_key];
    [seed] is the state of Python's generator when the object is built,
    which [RandomShuffler()] captures.  [batches] does not exist before
    [create_batches]; it is shown as a generator that yields nothing. *)
Definition __init__ (c : iterator_class) (dataset : list A)
           (dataset_sort_key : A -> Z) (batch_size : Z)
           (sort_key : option (A -> Z)) (batch_size_fn : option (size_fn A))
           (train repeat : bool) (shuffle sort sort_within_batch : option bool)
           (seed : RState) : Iterator :=
  let sort' := match sort with None => negb train | Some b => b end in
  {| cls := c; dataset := dataset; batch_size := batch_size;
     batch_size_fn := batch_size_fn;
     sort_key := match sort_key with None => dataset_sort_key | Some k => k end;
     train := train; repeat := repeat;
     shuffle := match shuffle with None => train | Some b => b end;
     sort := sort';
     sort_within_batch :=
       match sort_within_batch with None => sort' | Some b => b end;
     random_shuffler := Some seed;
     iterations := 0;
     _iterations_this_epoch := 0;
     _random_state_this_epoch := None;
     _restored_from_state := false;
     batches := finished [] |}.

(** [Iterator.data] *)
Definition data (self : Iterator) : (pyexn + list A) * Iterator :=
  if sort self then
    (inr (sorted (sort_key self) (dataset self)), self)
  else if shuffle self then
    match RandomShuffler_call (random_shuffler self)
            (seq 0 (length (dataset self))) with
    | inl e => (inl e, self)
    | inr (idx, rs) =>
        (inr (pick idx (dataset self)), set_random_shuffler self rs)
    end
  else
    (inr (dataset self), self).

(** [Iterator.create_batches] and [BucketIterator.create_batches].
    [self.data()] is evaluated at once.  The generator it is handed to is
    drained by the loop of [__iter__] before anything else reads the
    shuffler, so the draws that [pool] makes while it is iterated are
    accounted for here, in the order in which they happen. *)
Definition create_batches (self : Iterator) : option pyexn * Iterator :=
  match data self with
  | (inl e, self) => (Some e, self)
  | (inr xs, self) =>
      match cls self, sort self with
      | BucketIteratorClass, false =>
          let (bs, rs) := pool xs (batch_size self) (sort_key self)
                            (batch_size_fn self) (Some (random_shuffler self))
                            (shuffle self) (sort_within_batch self)
                            pool_default_lookahead in
          let self := match rs with
                      | Some rs => set_random_shuffler self rs
                      | None => self
                      end in
          (None, set_batches self bs)
      | _, _ =>
          (None, set_batches self
                   (finished (batch xs (batch_size self) (batch_size_fn self))))
      end
  end.

(** [Iterator.init_epoch] *)
Definition init_epoch (self : Iterator) : option pyexn * Iterator :=
  let self :=
    if _restored_from_state self then
      set_random_shuffler self (_random_state_this_epoch self)
    else
      set_random_state_this_epoch self (random_shuffler self) in
  match create_batches self with
  | (Some e, self) => (Some e, self)
  | (None, self) =>
      let self :=
        if _restored_from_state self then set_restored_from_state self false
        else set_iterations_this_epoch self 0 in
      let self := if repeat self then self else set_iterations self 0 in
      (None, self)
  end.


(** [Iterator.state_dict] *)
Definition state_dict (self : Iterator) : StateDict :=
  {| sd_iterations := Some (iterations self);
     sd_iterations_this_epoch := Some (_iterations_this_epoch self);
     sd_random_state_this_epoch := Some (_random_state_this_epoch self) |}.

(** [Iterator.load_state_dict]: three subscriptions and assignments in
    turn, each raising [KeyError] when its key is absent, then the flag. *)
Definition load_state_dict (self : Iterator) (state_dict : StateDict)
  : option pyexn * Iterator :=
  match sd_iterations state_dict with
  | None => (Some (KeyError "iterations"%string), self)
  | Some v1 =>
      let self := set_iterations self v1 in
      match sd_iterations_this_epoch state_dict with
      | None => (Some (KeyError "iterations_this_epoch"%string), self)
      | Some v2 =>
          let self := set_iterations_this_epoch self v2 in
          match sd_random_state_this_epoch state_dict with
          | None => (Some (KeyError "random_state_this_epoch"%string), self)
          | Some v3 =>
              let self := set_random_state_this_epoch self v3 in
              (None, set_restored_from_state self true)
          end
      end
  end.

(** The reordering applied to a minibatch before it is yielded. *)
Definition reorder (self : Iterator) (minibatch : list A) : list A :=
  if sort_within_batch self then
    if sort self then rev minibatch
    else sort_reverse (sort_key self) minibatch
  else minibatch.

(** The loop [for idx, minibatch in enumerate(self.batches)] of
    [Iterator.__iter__].  Each yielded batch is recorded with the
    checkpoint that [state_dict] returns while the generator is suspended
    at that [yield]. *)
Fixpoint epoch_loop (self : Iterator) (idx : Z) (minibatches : list (list A))
  : list (list A * StateDict) * Iterator :=
  match minibatches with
  | [] => ([], self)
  | minibatch :: rest =>
      if _iterations_this_epoch self >? idx then
        epoch_loop self (idx + 1) rest
      else
        let self := set_iterations self (iterations self + 1) in
        let self :=
          set_iterations_this_epoch self (_iterations_this_epoch self + 1) in
        let minibatch := reorder self minibatch in
        let (out, self') := epoch_loop self (idx + 1) rest in
        ((minibatch, state_dict self) :: out, self')
  end.

(** One turn of the [while True] loop of [Iterator.__iter__]: the epoch's
    yields and the object afterwards. *)
Definition epoch (self : Iterator)
  : emitted (list A * StateDict) * Iterator :=
  match init_epoch self with
  | (Some e, self) => (failed e, self)
  | (None, self) =>
      let (out, self) := epoch_loop self 0 (yielded (batches self)) in
      (Emitted out (raised (batches self)), self)
  end.

(** [Iterator.__iter__], followed for at most [epochs] turns of its
    [while True] loop: with [repeat] the generator never returns, and a
    consumer sees a prefix of what it yields. *)
Fixpoint __iter__ (epochs : nat) (self : Iterator)
  : emitted (list A * StateDict) * Iterator :=
  match epochs with
  | O => (finished [], self)
  | S n =>
      let (out, self) := epoch self in
      match raised out with
      | Some _ => (out, self)
      | None =>
          if repeat self then
            let (k, self') := __iter__ n self in
            (yield_all (yielded out) k, self')
          else (out, self)
      end
  end.

(** *** Notions used in the statements *)

(** Two objects that agree on all that [__init__] takes from its
    arguments. *)
Definition same_config (a b : Iterator) : Prop :=
  cls a = cls b /\ dataset a = dataset b /\ batch_size a = batch_size b
  /\ batch_size_fn a = batch_size_fn b /\ sort_key a = sort_key b
  /\ train a = train b /\ repeat a = repeat b /\ shuffle a = shuffle b
  /\ sort a = sort b /\ sort_within_batch a = sort_within_batch b.

(** The object after [n] more batches have been counted. *)
Definition advance (self : Iterator) (n : Z) : Iterator :=
  set_iterations_this_epoch
    (set_iterations self (iterations self + n))
    (_iterations_this_epoch self + n).

(** What the loop of [__iter__] yields when it skips nothing. *)
Fixpoint trace (self : Iterator) (minibatches : list (list A))
  : list (list A * StateDict) :=
  match minibatches with
  | [] => []
  | minibatch :: rest =>
      let self := advance self 1 in
      (reorder self minibatch, state_dict self) :: trace self rest
  end.

End Shuffled.

(** ** The BPTT chunker and its streaming variant *)

(** A 2-D tensor, as the list of its rows; [len] of a tensor is the number
    of its rows. *)
Definition tensor : Type := list (list Z).

(** [x.view(batch_size, -1).t().contiguous()] for a flat tensor [x] whose
    length is a multiple of [batch_size]: row [t] holds, for each of the
    [batch_size] streams [b], the element [b * width + t]. *)
Definition view_t (x : list Z) (batch_size : nat) : tensor :=
  let width := (length x / batch_size)%nat in
  map (fun t => map (fun b => nth (b * width + t) x 0) (seq 0 batch_size))
      (seq 0 width).

(** [x.t().contiguous()] of a 2-D tensor with [cols] columns. *)
Definition transpose (cols : nat) (x : tensor) : tensor :=
  map (fun c => map (fun row => nth c row 0) x) (seq 0 cols).

(** What [Batch.fromvars(dataset, batch_size, text=..., target=...)] is
    given. *)
Record BPTTBatch : Type := {
  text : tensor;
  target : tensor
}.

Section BPTT.
Context {token : Type}.

(** [text_field.pad_token], and the vocabulary lookup that
    [text_field.numericalize] applies to every token. *)
Variable pad_token : token.
Variable numericalize : token -> Z.

Variable batch_size : Z.
Variable cur_bptt_len : Z.
Variable batch_first : bool.

(** [BPTTIterator.prepare_text] and [LazyBPTTIterator.prepare_text_buffer],
    which have the same body; the auxiliary dataset they also return is
    left out.  [view] raises on a negative size and on an empty tensor,
    whose [-1] dimension cannot be inferred. *)
Definition prepare_text (text : list token) : pyexn + tensor :=
  if batch_size =? 0 then inl ZeroDivisionError
  else
    let nb_batches := ceil_div (len text) batch_size in
    let nb_iters := nb_batches * batch_size in
    let text := text ++ List.repeat pad_token (Z.to_nat (nb_iters - len text)) in
    let data := map numericalize text in
    if (batch_size <? 0) || (len data =? 0) then inl RuntimeError
    else inr (view_t data (Z.to_nat batch_size)).

(** [LazyBPTTIterator.get_len(text_buffer)]; [BPTTIterator.__len__] is the
    same expression on [self.dataset[0].text]. *)
Definition get_len (text_buffer : list token) : pyexn + Z :=
  if (batch_size =? 0) || (cur_bptt_len =? 0) then inl ZeroDivisionError
  else inr (Qceiling ((inject_Z (len text_buffer) / inject_Z batch_size - 1)
                      / inject_Z cur_bptt_len)).

(** The body of the loop of [BPTTIterator.__iter__] and of
    [LazyBPTTIterator.consume_data], at index [i]. *)
Definition window (data : tensor) (i : Z) : BPTTBatch :=
  let seq_len := Z.min cur_bptt_len (len data - i - 1) in
  let batch_text := py_slice data i (i + seq_len) in
  let batch_target := py_slice data (i + 1) (i + 1 + seq_len) in
  if batch_first then
    {| text := transpose (Z.to_nat batch_size) batch_text;
       target := transpose (Z.to_nat batch_size) batch_target |}
  else
    {| text := batch_text; target := batch_target |}.

(** [LazyBPTTIterator.consume_data(data, text_len)].  The indices of
    [range(0, text_len * cur_bptt_len, cur_bptt_len)] are the multiples
    [k * cur_bptt_len] for [0 <= k < text_len]. *)
Definition consume_data (data : tensor) (text_len : Z) : list BPTTBatch :=
  map (fun k => window data (Z.of_nat k * cur_bptt_len))
      (seq 0 (Z.to_nat text_len)).




(** *** [LazyBPTTIterator]

    An example is represented by its text, the list of its tokens. *)

Variable buffer_size : Z.

(** The [while] loop of [get_contiguous_buffer], which moves tokens from
    the front of [prev_text_buffer] to the end of [text_buffer]. *)
Fixpoint refill (text_buffer prev_text_buffer : list token)
  : list token * list token :=
  match prev_text_buffer with
  | [] => (text_buffer, [])
  | w :: prev' =>
      if len text_buffer <? buffer_size * cur_bptt_len then
        refill (text_buffer ++ [w]) prev'
      else (text_buffer, prev_text_buffer)
  end.

(** The loop [for w in text]. *)
Fixpoint take_words (text text_buffer prev_text_buffer : list token)
  : list token * list token :=
  match text with
  | [] => (text_buffer, prev_text_buffer)
  | w :: text' =>
      if len text_buffer + 1 <=? buffer_size * cur_bptt_len then
        take_words text' (text_buffer ++ [w]) prev_text_buffer
      else
        take_words text' text_buffer (prev_text_buffer ++ [w])
  end.

(** The loop [for ex in self.buffer], which starts every example with
    [self.prev_text_buffer = []]. *)
Fixpoint take_examples (buffer : list (list token))
         (text_buffer prev_text_buffer : list token)
  : list token * list token :=
  match buffer with
  | [] => (text_buffer, prev_text_buffer)
  | ex :: rest =>
      let (text_buffer, prev_text_buffer) := take_words ex text_buffer [] in
      take_examples rest text_buffer prev_text_buffer
  end.

(** [LazyBPTTIterator.get_contiguous_buffer]: the returned [text_buffer]
    and the new value of [self.prev_text_buffer]. *)
Definition get_contiguous_buffer (buffer : list (list token))
           (prev_text_buffer : list token) : list token * list token :=
  let (text_buffer, prev_text_buffer) := refill [] prev_text_buffer in
  if len text_buffer =? cur_bptt_len then (text_buffer, prev_text_buffer)
  else take_examples buffer text_buffer prev_text_buffer.

(** [LazyBPTTIterator.consume_buffer]: the batches, the token stream
    [cur_text_buffer] they are cut from, and the new
    [self.prev_text_buffer]. *)
Definition consume_buffer (buffer : list (list token))
           (prev_text_buffer : list token)
  : (pyexn + list BPTTBatch) * list token * list token :=
  let (cur_text_buffer, prev_text_buffer) :=
    get_contiguous_buffer buffer prev_text_buffer in
  let out := match prepare_text cur_text_buffer with
             | inl e => inl e
             | inr data =>
                 match get_len cur_text_buffer with
                 | inl e => inl e
                 | inr t_len => inr (consume_data data t_len)
                 end
             end in
  (out, cur_text_buffer, prev_text_buffer).

(** The loop [for ex in self.data()] of [LazyBPTTIterator.__iter__] and
    the final test on a buffer that is not empty, reduced to the token
    streams that the successive calls of [consume_buffer] window.
    [clear_buffer], called after each of them, empties both [self.buffer]
    and [self.prev_text_buffer]. *)
Fixpoint consumed_streams (stream buffer : list (list token))
         (prev_text_buffer : list token) : list (list token) :=
  match stream with
  | [] =>
      if 0 <? len buffer then
        [snd (fst (consume_buffer buffer prev_text_buffer))]
      else []
  | ex :: rest =>
      let buffer := buffer ++ [ex] in
      if len buffer =? buffer_size then
        snd (fst (consume_buffer buffer prev_text_buffer))
          :: consumed_streams rest [] []
      else consumed_streams rest buffer prev_text_buffer
  end.

End BPTT.

(** ** A shuffler for the examples

    A generator whose state is a counter and whose draw is the rotation of
    the indices by the counter: enough to run the model on concrete
    inputs. *)
Definition example_sample (s n : nat) : list nat * nat :=
  let r := (s mod n)%nat in
  (skipn r (seq 0 n) ++ firstn r (seq 0 n), S s).

(** * Part I, continued: the rest of the module *)

(** ** Size functions *)

(** The size function that the docstring of [Iterator] describes, which
    adds to the running size the number of tokens of the new example. *)
Definition token_size_fn {A} (tokens : A -> Z) : size_fn A :=
  fun new _ sofar => sofar + tokens new.

(** The number of tokens of a batch. *)
Definition total {A} (tokens : A -> Z) (b : list A) : Z :=
  fold_right (fun x acc => tokens x + acc) 0 b.

(** ** Further exceptions *)

(** The exceptions of the parts modelled below: those of [pyexn], and two
    more. *)
Inductive pyexn_ext : Type :=
| Exn (e : pyexn)
| ValueError
| IndexError.

(** ** The [epoch] property and [splits] *)

Section IteratorRest.
Context {A : Type}.
Variable RState : Type.



(** The keyword arguments that [splits] passes on to the constructor; a
    field is [None] when the keyword is not given.  [device] is left out,
    as in [Iterator]. *)
Record Kwargs : Type := {
  kw_batch_size : option Z;
  kw_train : option bool;
  kw_sort_key : option (A -> Z);
  kw_batch_size_fn : option (size_fn A);
  kw_repeat : option bool;
  kw_shuffle : option bool;
  kw_sort : option bool;
  kw_sort_within_batch : option bool
}.

Definition given {B} (o : option B) : bool :=
  match o with Some _ => true | None => false end.

(** The loop of [splits] from index [i] on.  A dataset comes with its
    [sort_key].  The call [cls(datasets[i], batch_size=batch_sizes[i],
    train=train, **kwargs)] raises [TypeError] when [kwargs] still holds
    [batch_size] or holds [train], which would be given twice;
    [batch_sizes[i]] raises [IndexError] past the end.  Every constructor
    finds Python's generator in the same state [seed]. *)
Fixpoint splits_loop (c : iterator_class)
         (datasets : list (list A * (A -> Z))) (batch_sizes : list Z)
         (i : nat) (kwargs : Kwargs) (seed : RState)
  : pyexn_ext + list (@Iterator A RState) :=
  match datasets with
  | [] => inr []
  | (ds, ds_sort_key) :: rest =>
      let train := Nat.eqb i 0 in
      match nth_error batch_sizes i with
      | None => inl IndexError
      | Some batch_size =>
          if given (kw_batch_size kwargs) || given (kw_train kwargs) then
            inl (Exn TypeError)
          else
            let it := __init__ c ds ds_sort_key batch_size
                        (kw_sort_key kwargs) (kw_batch_size_fn kwargs) train
                        (match kw_repeat kwargs with
                         | None => false
                         | Some b => b
                         end)
                        (kw_shuffle kwargs) (kw_sort kwargs)
                        (kw_sort_within_batch kwargs) seed in
            match splits_loop c rest batch_sizes (S i) kwargs seed with
            | inl e => inl e
            | inr ret => inr (it :: ret)
            end
      end
  end.

Definition pop_batch_size (kwargs : Kwargs) : Kwargs :=
  {| kw_batch_size := None; kw_train := kw_train kwargs;
     kw_sort_key := kw_sort_key kwargs;
     kw_batch_size_fn := kw_batch_size_fn kwargs;
     kw_repeat := kw_repeat kwargs; kw_shuffle := kw_shuffle kwargs;
     kw_sort := kw_sort kwargs;
     kw_sort_within_batch := kw_sort_within_batch kwargs |}.

(** [Iterator.splits] *)
Definition splits (c : iterator_class) (datasets : list (list A * (A -> Z)))
           (batch_sizes : option (list Z)) (kwargs : Kwargs) (seed : RState)
  : pyexn_ext + list (@Iterator A RState) :=
  match batch_sizes with
  | Some batch_sizes => splits_loop c datasets batch_sizes 0 kwargs seed
  | None =>
      match kw_batch_size kwargs with
      | None => inl (Exn (KeyError "batch_size"%string))
      | Some b =>
          splits_loop c datasets (List.repeat b (length datasets)) 0
            (pop_batch_size kwargs) seed
      end
  end.

End IteratorRest.

(** ** [LazyIterator] and [LazyBucketIterator] *)

Module Lazy.
Section LazyIterators.
Context {A : Type}.
Variable RState : Type.
Variable sample : RState -> nat -> list nat * RState.

(** Which [create_batches] the object has. *)
Inductive lazy_class : Type :=
| LazyIteratorClass
| LazyBucketIteratorClass.

(** The object: the attributes of [Iterator], whose [dataset] is now an
    iterable that an epoch reads once, in order, and those that
    [LazyIterator.__init__] adds. *)
Record LazyIterator : Type := {
  base : @Iterator A RState;
  lazy_cls : lazy_class;
  buffer : list A;
  buffer_size : Z
}.

Definition set_base (self : LazyIterator) (v : @Iterator A RState) :=
  {| base := v; lazy_cls := lazy_cls self; buffer := buffer self;
     buffer_size := buffer_size self |}.

Definition set_buffer (self : LazyIterator) (v : list A) :=
  {| base := base self; lazy_cls := lazy_cls self; buffer := v;
     buffer_size := buffer_size self |}.

(** [LazyIterator.__init__] *)
Definition __init__ (c : lazy_class) (dataset : list A)
           (dataset_sort_key : A -> Z) (batch_size : Z)
           (sort_key : option (A -> Z)) (batch_size_fn : option (size_fn A))
           (train repeat : bool) (shuffle sort sort_within_batch : option bool)
           (buffer_size : option Z) (seed : RState) : LazyIterator :=
  {| base := __init__ IteratorClass dataset dataset_sort_key batch_size
               sort_key batch_size_fn train repeat shuffle sort
               sort_within_batch seed;
     lazy_cls := c;
     buffer := [];
     buffer_size := match buffer_size with
                    | None => batch_size * 2 ^ 10
                    | Some n => n
                    end |}.

(** [LazyIterator.clear_buffer] *)
Definition clear_buffer (self : LazyIterator) : LazyIterator :=
  set_buffer self [].

(** [LazyIterator.prepare_buffer] *)
Definition prepare_buffer (self : LazyIterator)
  : option pyexn * LazyIterator :=
  if sort (base self) then
    (None, set_buffer self (sorted (sort_key (base self)) (buffer self)))
  else if shuffle (base self) then
    match RandomShuffler_call sample (random_shuffler (base self))
            (seq 0 (length (buffer self))) with
    | inl e => (Some e, self)
    | inr (idx, rs) =>
        (None, set_base (set_buffer self (pick idx (buffer self)))
                 (set_random_shuffler (base self) rs))
    end
  else (None, self).

(** [LazyIterator.create_batches] and [LazyBucketIterator.create_batches],
    as [consume_buffer] calls them: the loop that follows drains the
    generator, and the draws of [pool] are accounted for here. *)
Definition create_batches (self : LazyIterator) : LazyIterator :=
  let b := base self in
  match lazy_cls self, sort b with
  | LazyBucketIteratorClass, false =>
      let (bs, rs) := pool sample (buffer self) (batch_size b) (sort_key b)
                        (batch_size_fn b) (Some (random_shuffler b))
                        (shuffle b) (sort_within_batch b)
                        (buffer_size self) in
      let b := match rs with
               | Some rs => set_random_shuffler b rs
               | None => b
               end in
      set_base self (set_batches b bs)
  | _, _ =>
      set_base self
        (set_batches b
           (finished (batch (buffer self) (batch_size b) (batch_size_fn b))))
  end.

(** The loop [for minibatch in self.batches] of [consume_buffer], which
    counts every batch and skips none. *)
Fixpoint consume_loop (self : @Iterator A RState)
         (minibatches : list (list A)) : list (list A) * @Iterator A RState :=
  match minibatches with
  | [] => ([], self)
  | minibatch :: rest =>
      let self := set_iterations self (iterations self + 1) in
      let self :=
        set_iterations_this_epoch self (_iterations_this_epoch self + 1) in
      let minibatch := reorder self minibatch in
      let (out, self') := consume_loop self rest in
      (minibatch :: out, self')
  end.

(** [LazyIterator.consume_buffer] *)
Definition consume_buffer (self : LazyIterator)
  : emitted (list A) * LazyIterator :=
  match prepare_buffer self with
  | (Some e, self) => (failed e, self)
  | (None, self) =>
      let self := create_batches self in
      let (out, b) := consume_loop (base self)
                        (yielded (batches (base self))) in
      (Emitted out (raised (batches b)), set_base self b)
  end.

(** [Iterator.init_epoch] on a lazy iterator.  Its call of
    [self.create_batches()] stores a generator over the buffer that is
    replaced before it is ever started: it has no effect. *)
Definition init_epoch (self : LazyIterator) : LazyIterator :=
  let b := base self in
  let b :=
    if _restored_from_state b then
      set_random_shuffler b (_random_state_this_epoch b)
    else
      set_random_state_this_epoch b (random_shuffler b) in
  let b :=
    if _restored_from_state b then set_restored_from_state b false
    else set_iterations_this_epoch b 0 in
  let b := if repeat b then b else set_iterations b 0 in
  set_base self b.

(** The loop [for ex in self.data()] of [LazyIterator.__iter__], followed
    by the test on a buffer that is not empty. *)
Fixpoint feed (stream : list A) (self : LazyIterator)
  : emitted (list A) * LazyIterator :=
  match stream with
  | [] =>
      if 0 <? len (buffer self) then
        let (out, self) := consume_buffer self in
        match raised out with
        | Some _ => (out, self)
        | None => (out, clear_buffer self)
        end
      else (finished [], self)
  | ex :: rest =>
      let self := set_buffer self (buffer self ++ [ex]) in
      if len (buffer self) =? buffer_size self then
        let (out, self) := consume_buffer self in
        match raised out with
        | Some _ => (out, self)
        | None =>
            let (k, self') := feed rest (clear_buffer self) in
            (yield_all (yielded out) k, self')
        end
      else feed rest self
  end.

(** One turn of the [while True] loop of [LazyIterator.__iter__]. *)
Definition epoch (self : LazyIterator) : emitted (list A) * LazyIterator :=
  let self := clear_buffer (init_epoch self) in
  feed (dataset (base self)) self.

(** [LazyIterator.__iter__], followed for at most [epochs] turns. *)
Fixpoint __iter__ (epochs : nat) (self : LazyIterator)
  : emitted (list A) * LazyIterator :=
  match epochs with
  | O => (finished [], self)
  | S n =>
      let (out, self) := epoch self in
      match raised out with
      | Some _ => (out, self)
      | None =>
          if repeat (base self) then
            let (k, self') := __iter__ n self in
            (yield_all (yielded out) k, self')
          else (out, self)
      end
  end.

(** What [consume_buffer] makes of a buffer when nothing is shuffled: the
    batches of the buffer, sorted first when [sort] is set, each reordered
    for the caller. *)
Definition process (self : LazyIterator) (buf : list A) : list (list A) :=
  let b := base self in
  let buf := if sort b then sorted (sort_key b) buf else buf in
  map (reorder b)
    (match lazy_cls self, sort b with
     | LazyBucketIteratorClass, false =>
         flat_map (fun p => batch (if sort_within_batch b
                                   then sorted (sort_key b) p else p)
                              (batch_size b) (batch_size_fn b))
           (batch buf (batch_size b * buffer_size self) (batch_size_fn b))
     | _, _ => batch buf (batch_size b) (batch_size_fn b)
     end).

(** Two lazy iterators that agree on all that [__init__] takes from its
    arguments. *)
Definition same_setup (a b : LazyIterator) : Prop :=
  same_config (base a) (base b) /\ lazy_cls a = lazy_cls b
  /\ buffer_size a = buffer_size b.

End LazyIterators.
End Lazy.

(** * Part II: properties *)

(** ** Slices *)

Lemma len_snoc {B} (l : list B) (x : B) : len (l ++ [x]) = len l + 1.
Proof. unfold len. rewrite length_app. simpl. lia. Qed.

Lemma slice_but_last_snoc {B} (l : list B) (x : B) :
  slice_but_last (l ++ [x]) = l.
Proof.
  unfold slice_but_last. rewrite length_app. simpl.
  replace (length l + 1 - 1)%nat with (length l + 0)%nat by lia.
  rewrite firstn_app_2. simpl. apply app_nil_r.
Qed.

Lemma slice_last_snoc {B} (l : list B) (x : B) :
  slice_last (l ++ [x]) = [x].
Proof.
  unfold slice_last. rewrite length_app. simpl.
  replace (length l + 1 - 1)%nat with (length l) by lia.
  rewrite skipn_app, skipn_all, Nat.sub_diag. reflexivity.
Qed.


(** ** [batch] *)

Section BatchFacts.
Context {A : Type}.
Implicit Types (fn : size_fn A) (data minibatch : list A).

(** The batches, concatenated, are the input, in its order. *)
Lemma batch_loop_concat fn cap data :
  forall minibatch size_so_far,
    concat (batch_loop fn cap data minibatch size_so_far) = minibatch ++ data.
Proof.
  induction data as [|ex rest IH]; intros mb sz; simpl.
  - destruct mb; simpl; now rewrite ?app_nil_r.
  - destruct (_ =? cap).
    + simpl. rewrite IH. simpl. now rewrite <- app_assoc.
    + destruct (_ >? cap).
      * simpl. rewrite IH, slice_but_last_snoc, slice_last_snoc.
        reflexivity.
      * rewrite IH. now rewrite <- app_assoc.
Qed.

Lemma batch_concat data cap batch_size_fn :
  concat (batch data cap batch_size_fn) = data.
Proof. unfold batch. now rewrite batch_loop_concat. Qed.

(** A source that is not empty yields at least one batch. *)
Lemma batch_loop_nonempty fn cap data :
  forall minibatch size_so_far,
    minibatch ++ data <> [] ->
    batch_loop fn cap data minibatch size_so_far <> [].
Proof.
  induction data as [|ex rest IH]; intros mb sz Hne; simpl.
  - rewrite app_nil_r in Hne. destruct mb; [congruence|discriminate].
  - destruct (_ =? cap); [discriminate|].
    destruct (_ >? cap); [discriminate|].
    apply IH. destruct mb; discriminate.
Qed.

Lemma batch_nonempty data cap batch_size_fn :
  data <> [] -> batch data cap batch_size_fn <> [].
Proof. intro H. unfold batch. now apply batch_loop_nonempty. Qed.



End BatchFacts.


(** ** Sorting *)

Section SortingFacts.
Context {A : Type}.
Variable key : A -> Z.

Lemma insert_asc_perm x l : Permutation (insert_asc key x l) (x :: l).
Proof.
  induction l as [|y l IH]; simpl; [reflexivity|].
  destruct (key x <=? key y); [reflexivity|].
  rewrite IH. apply perm_swap.
Qed.

Lemma insert_desc_perm x l : Permutation (insert_desc key x l) (x :: l).
Proof.
  induction l as [|y l IH]; simpl; [reflexivity|].
  destruct (key y <=? key x); [reflexivity|].
  rewrite IH. apply perm_swap.
Qed.

Lemma sorted_perm l : Permutation (sorted key l) l.
Proof.
  induction l as [|x l IH]; simpl; [reflexivity|].
  rewrite insert_asc_perm. now constructor.
Qed.

Lemma sort_reverse_perm l : Permutation (sort_reverse key l) l.
Proof.
  induction l as [|x l IH]; simpl; [reflexivity|].
  rewrite insert_desc_perm. now constructor.
Qed.





(** A list that is already in order is left as it is. *)
Lemma sorted_ascending_id l : ascending key l -> sorted key l = l.
Proof.
  unfold ascending. induction 1 as [|x l Hl IH Hx]; simpl; [reflexivity|].
  rewrite IH. destruct l as [|y l']; [reflexivity|]. simpl.
  inversion Hx as [|? ? Hxy _]; subst. unfold key_le in Hxy.
  destruct (Z.leb_spec (key x) (key y)); [reflexivity|lia].
Qed.






End SortingFacts.

(** ** The shuffler and [pool] *)

Lemma Permutation_concat {B} (l l' : list (list B)) :
  Permutation l l' -> Permutation (concat l) (concat l').
Proof.
  induction 1 as [|x l l' _ IH|x y l|l l' l'' _ IH1 _ IH2]; simpl.
  - reflexivity.
  - now apply Permutation_app_head.
  - rewrite !app_assoc. apply Permutation_app_tail, Permutation_app_comm.
  - now transitivity (concat l').
Qed.

Section PoolFacts.
Context {A : Type}.
Variable RState : Type.
Variable sample : RState -> nat -> list nat * RState.

Lemma pick_seq {B} (pre data : list B) :
  pick (seq (length pre) (length data)) (pre ++ data) = data.
Proof.
  revert pre. induction data as [|x data IH]; intro pre; [reflexivity|].
  unfold pick in *. simpl.
  rewrite nth_error_app2, Nat.sub_diag by lia. simpl. f_equal.
  specialize (IH (pre ++ [x])).
  rewrite length_app, <- app_assoc in IH. simpl in IH.
  now rewrite Nat.add_1_r in IH.
Qed.

(** Picking along a permutation of the indices permutes the list. *)
Lemma pick_perm {B} (idx : list nat) (data : list B) :
  Permutation idx (seq 0 (length data)) -> Permutation (pick idx data) data.
Proof.
  intro H. rewrite <- (pick_seq [] data) at 2. simpl.
  unfold pick. now apply Permutation_flat_map.
Qed.


Implicit Types (windows : list (list A)) (key : A -> Z).
Implicit Types (batch_size_fn : option (size_fn A)).
Implicit Types (random_shuffler : option (RandomShuffler RState)).

(** Without shuffling, [pool] emits the batches of each window in turn
    and leaves the shuffler alone. *)
Lemma pool_windows_no_shuffle windows cap key batch_size_fn random_shuffler
      sort_within_batch :
  pool_windows sample windows cap key batch_size_fn random_shuffler false
    sort_within_batch
  = (finished
       (flat_map (fun p => batch (if sort_within_batch then sorted key p
                                  else p) cap batch_size_fn) windows),
     random_shuffler).
Proof.
  induction windows as [|p rest IH]; simpl; [reflexivity|].
  now rewrite IH.
Qed.

(** With an injected shuffler that holds a state, [pool] does not raise
    and emits, window after window, a reordering of the window's batches
    chosen by the shuffler. *)
Lemma pool_windows_injected windows cap key batch_size_fn shuffle
      sort_within_batch :
  (forall s n, Permutation (fst (sample s n)) (seq 0 n)) ->
  forall s,
  exists bs s',
    pool_windows sample windows cap key batch_size_fn (Some (Some s)) shuffle
      sort_within_batch = (finished bs, Some (Some s'))
    /\ Permutation (concat bs) (concat windows).
Proof.
  intro Hperm. induction windows as [|p rest IH]; intro s; simpl.
  - exists [], s. split; reflexivity.
  - set (p' := if sort_within_batch then sorted key p else p).
    assert (Hp : Permutation p' p).
    { subst p'. destruct sort_within_batch; [apply sorted_perm|reflexivity]. }
    destruct shuffle.
    + destruct (sample s (length (batch p' cap batch_size_fn)))
        as [idx s1] eqn:Es. simpl.
      destruct (IH s1) as (bs & s' & E & Hbs).
      destruct (pool_windows _ rest _ _ _ _ _ _) as [k rs].
      injection E as -> ->.
      eexists _, s'. split; [reflexivity|].
      rewrite concat_app. apply Permutation_app; [|assumption].
      transitivity (concat (batch p' cap batch_size_fn));
        [|now rewrite batch_concat].
      apply Permutation_concat, pick_perm.
      specialize (Hperm s (length (batch p' cap batch_size_fn))).
      now rewrite Es in Hperm.
    + destruct (IH s) as (bs & s' & E & Hbs).
      destruct (pool_windows _ rest _ _ _ _ _ _) as [k rs].
      injection E as -> ->.
      eexists _, s'. split; [reflexivity|].
      simpl. rewrite concat_app. apply Permutation_app; [|assumption].
      now rewrite batch_concat.
Qed.

(** C2. Coverage.  The batches that [batch] emits, concatenated, are the
    input itself, so every example is in exactly one batch.  The examples
    of all the batches that [pool] emits are the examples of the input,
    each as many times as in the input, whenever [pool] has what an epoch
    gives it: either no shuffling, or a shuffler holding a state, whose
    draws are permutations. *)
Theorem batch_pool_coverage (data : list A) (cap : Z) batch_size_fn :
  concat (batch data cap batch_size_fn) = data
  /\ (forall key random_shuffler sort_within_batch lookahead,
         let out := fst (pool sample data cap key batch_size_fn
                           random_shuffler false sort_within_batch
                           lookahead) in
         raised out = None /\ Permutation (concat (yielded out)) data)
  /\ ((forall s n, Permutation (fst (sample s n)) (seq 0 n)) ->
      forall key s shuffle sort_within_batch lookahead,
        let out := fst (pool sample data cap key batch_size_fn
                          (Some (Some s)) shuffle sort_within_batch
                          lookahead) in
        raised out = None /\ Permutation (concat (yielded out)) data).
Proof.
  split; [apply batch_concat|]. split.
  - intros key rs swb lookahead. unfold pool.
    rewrite pool_windows_no_shuffle. simpl. split; [reflexivity|].
    rewrite <- (batch_concat data (cap * lookahead) batch_size_fn) at 2.
    generalize (batch data (cap * lookahead) batch_size_fn) as windows.
    induction windows as [|p rest IH]; simpl; [reflexivity|].
    rewrite concat_app, batch_concat. apply Permutation_app; [|assumption].
    destruct swb; [apply sorted_perm|reflexivity].
  - intros Hperm key s shuffle swb lookahead. unfold pool.
    destruct (pool_windows_injected
                (batch data (cap * lookahead) batch_size_fn) cap key
                batch_size_fn shuffle swb Hperm s) as (bs & s' & -> & Hbs).
    simpl. split; [reflexivity|]. now rewrite batch_concat in Hbs.
Qed.

(** C10. On an input that is not empty, [pool] with [shuffle=True] and no
    shuffler yields nothing and raises [TypeError]: the fallback
    [random.shuffle] returns [None], which the loop over the shuffled
    batches cannot iterate. *)
Theorem pool_fallback_shuffler_raises (data : list A) cap key batch_size_fn
        sort_within_batch lookahead :
  data <> [] ->
  fst (pool sample data cap key batch_size_fn None true sort_within_batch
         lookahead)
  = Emitted [] (Some TypeError).
Proof.
  intro Hne. unfold pool.
  pose proof (batch_nonempty (cap * lookahead) batch_size_fn Hne) as Hw.
  destruct (batch data (cap * lookahead) batch_size_fn) as [|p rest];
    [congruence|].
  reflexivity.
Qed.



End PoolFacts.

(** ** The iterator *)

Section IteratorFacts.
Context {A : Type}.
Variable RState : Type.
Variable sample : RState -> nat -> list nat * RState.

Implicit Types (self fresh : @Iterator A RState).

Lemma Iterator_ext (a b : @Iterator A RState) :
  same_config a b ->
  random_shuffler a = random_shuffler b ->
  iterations a = iterations b ->
  _iterations_this_epoch a = _iterations_this_epoch b ->
  _random_state_this_epoch a = _random_state_this_epoch b ->
  _restored_from_state a = _restored_from_state b ->
  batches a = batches b ->
  a = b.
Proof.
  destruct a, b. unfold same_config. simpl.
  intros (? & ? & ? & ? & ? & ? & ? & ? & ? & ?) ? ? ? ? ? ?.
  subst. reflexivity.
Qed.

Lemma same_config_refl (a : @Iterator A RState) : same_config a a.
Proof. unfold same_config. tauto. Qed.

Lemma same_config_sym (a b : @Iterator A RState) :
  same_config a b -> same_config b a.
Proof. unfold same_config. intuition congruence. Qed.

Lemma same_config_trans (a b c : @Iterator A RState) :
  same_config a b -> same_config b c -> same_config a c.
Proof. unfold same_config. intuition congruence. Qed.

Lemma reorder_same_config (a b : @Iterator A RState) :
  same_config a b -> reorder a = reorder b.
Proof.
  unfold same_config, reorder.
  intros (_ & _ & _ & _ & Hk & _ & _ & _ & Hs & Hw).
  now rewrite Hk, Hs, Hw.
Qed.

Lemma advance_same_config self n : same_config (advance self n) self.
Proof. unfold same_config. simpl. tauto. Qed.

Lemma advance_0 self : advance self 0 = self.
Proof.
  apply Iterator_ext; try reflexivity; try apply advance_same_config;
    simpl; lia.
Qed.

Lemma advance_add self n m :
  advance (advance self n) m = advance self (n + m).
Proof.
  apply Iterator_ext; try reflexivity; simpl; try lia.
  unfold same_config. simpl. tauto.
Qed.

(** When nothing is left to skip, the loop emits every batch. *)
Lemma epoch_loop_emit_all (minibatches : list (list A)) :
  forall self idx,
    _iterations_this_epoch self <= idx ->
    epoch_loop self idx minibatches
    = (trace self minibatches, advance self (len minibatches)).
Proof.
  induction minibatches as [|mb rest IH]; intros self idx Hle.
  - simpl. now rewrite advance_0.
  - simpl.
    destruct (Z.gtb_spec (_iterations_this_epoch self) idx); [lia|].
    change (set_iterations_this_epoch
              (set_iterations self (iterations self + 1))
              (_iterations_this_epoch self + 1)) with (advance self 1).
    rewrite IH by (simpl; lia).
    rewrite advance_add. do 2 f_equal.
    unfold len. simpl length. lia.
Qed.

(** The batches that the checkpoint counts as emitted are skipped. *)
Lemma epoch_loop_skip (pre rest : list (list A)) :
  forall self idx,
    idx + len pre <= _iterations_this_epoch self ->
    epoch_loop self idx (pre ++ rest) = epoch_loop self (idx + len pre) rest.
Proof.
  induction pre as [|mb pre IH]; intros self idx Hle.
  - simpl. unfold len. simpl. now rewrite Z.add_0_r.
  - unfold len in *. simpl length in *. simpl app. simpl epoch_loop.
    destruct (Z.gtb_spec (_iterations_this_epoch self) idx); [|lia].
    rewrite IH by lia. f_equal. lia.
Qed.

Lemma trace_batches (minibatches : list (list A)) :
  forall self,
    map fst (trace self minibatches) = map (reorder self) minibatches.
Proof.
  induction minibatches as [|mb rest IH]; intro self; simpl; [reflexivity|].
  rewrite IH. now rewrite (reorder_same_config (advance_same_config self 1)).
Qed.

Lemma trace_nth_error (minibatches : list (list A)) :
  forall self k b sd,
    nth_error (trace self minibatches) k = Some (b, sd) ->
    sd = state_dict (advance self (Z.of_nat k + 1))
    /\ (k < length minibatches)%nat.
Proof.
  induction minibatches as [|mb rest IH]; intros self k b sd H.
  - destruct k; discriminate.
  - destruct k as [|k]; simpl in H.
    + injection H as _ <-. split; [reflexivity|simpl; lia].
    + apply IH in H. destruct H as [-> Hk]. split; [|simpl; lia].
      rewrite advance_add. do 2 f_equal. lia.
Qed.


Lemma set_random_shuffler_id self :
  set_random_shuffler self (random_shuffler self) = self.
Proof. destruct self; reflexivity. Qed.

(** [create_batches] reads the configuration and the shuffler only; it
    either raises and leaves the object as it is, or stores the batches
    and the shuffler as generation leaves it. *)
Lemma create_batches_norm (a b : @Iterator A RState) :
  same_config a b ->
  random_shuffler a = random_shuffler b ->
  (exists e,
      create_batches sample a = (Some e, a)
      /\ create_batches sample b = (Some e, b))
  \/ (exists rs bs,
         create_batches sample a
         = (None, set_batches (set_random_shuffler a rs) bs)
         /\ create_batches sample b
            = (None, set_batches (set_random_shuffler b rs) bs)).
Proof.
  intros (Hc & Hd & Hb & Hf & Hk & _ & _ & Hsh & Hs & Hw) Hrs.
  assert (Hida : forall bs, set_batches a bs
                 = set_batches (set_random_shuffler a (random_shuffler b)) bs).
  { intro bs. rewrite <- Hrs. now rewrite set_random_shuffler_id. }
  assert (Hidb : forall bs, set_batches b bs
                 = set_batches (set_random_shuffler b (random_shuffler b)) bs).
  { intro bs. now rewrite set_random_shuffler_id. }
  unfold create_batches, data.
  rewrite Hs, Hsh, Hrs, Hd. destruct (sort b) eqn:Es.
  - rewrite Hs, Hc, Hb, Hf, Hk, Es. right.
    exists (random_shuffler b). eexists.
    split; [rewrite <- Hida|rewrite <- Hidb];
      destruct (cls b); reflexivity.
  - destruct (shuffle b) eqn:Esh.
    + destruct (random_shuffler b) as [s|] eqn:Er; simpl.
      2:{ left. exists TypeError. split; reflexivity. }
      destruct (sample s _) as [idx s1]. simpl.
      rewrite Hs, Hc, Hb, Hf, Hk, Hsh, Hw, Es, Esh.
      destruct (cls b).
      * right. exists (Some s1). eexists. split; reflexivity.
      * destruct (pool _ _ _ _ _ _ _ _ _) as [bs [rs|]]; right.
        -- exists rs, bs. split; reflexivity.
        -- exists (Some s1), bs. split; reflexivity.
    + rewrite Hs, Hc, Hb, Hf, Hk, Hsh, Hw, Hrs, Es, Esh.
      destruct (cls b).
      * right. exists (random_shuffler b). eexists.
        split; [rewrite <- Hida|rewrite <- Hidb]; reflexivity.
      * destruct (pool _ _ _ _ _ _ _ _ _) as [bs [rs|]]; right.
        -- exists rs, bs. split; reflexivity.
        -- exists (random_shuffler b), bs.
           split; [rewrite <- Hida|rewrite <- Hidb]; reflexivity.
Qed.

(** An epoch of an object that was not restored: the epoch's batches are
    generated from the shuffler state that [init_epoch] records, and all
    of them are emitted. *)
Lemma epoch_not_restored self rs bs :
  _restored_from_state self = false ->
  let s1 := set_random_state_this_epoch self (random_shuffler self) in
  create_batches sample s1
  = (None, set_batches (set_random_shuffler s1 rs) bs) ->
  let s3 := set_iterations_this_epoch
              (set_batches (set_random_shuffler s1 rs) bs) 0 in
  let s4 := if repeat self then s3 else set_iterations s3 0 in
  epoch sample self
  = (Emitted (trace s4 (yielded bs)) (raised bs),
     advance s4 (len (yielded bs))).
Proof.
  intros Hr s1 Hc s3 s4. unfold epoch, init_epoch.
  rewrite Hr. fold s1. rewrite Hc. simpl. rewrite Hr. fold s1 s3.
  change (if repeat s3 then s3 else set_iterations s3 0) with s4.
  assert (Hb : batches s4 = bs) by (subst s4; now destruct (repeat self)).
  assert (Hi : _iterations_this_epoch s4 = 0)
    by (subst s4; now destruct (repeat self)).
  rewrite Hb, epoch_loop_emit_all by lia.
  change (batches (advance s4 (len (yielded bs)))) with (batches s4).
  now rewrite Hb.
Qed.

(** The first epoch of an object restored from a checkpoint that counts
    [n] batches: the same batches are generated from the restored shuffler
    state, and the first [n] are skipped. *)
Lemma epoch_restored self rs bs (n : nat) :
  _restored_from_state self = true ->
  let r1 := set_random_shuffler self (_random_state_this_epoch self) in
  create_batches sample r1
  = (None, set_batches (set_random_shuffler r1 rs) bs) ->
  _iterations_this_epoch self = Z.of_nat n ->
  (n <= length (yielded bs))%nat ->
  let r3 := set_restored_from_state
              (set_batches (set_random_shuffler r1 rs) bs) false in
  let r4 := if repeat self then r3 else set_iterations r3 0 in
  epoch sample self
  = (Emitted (trace r4 (skipn n (yielded bs))) (raised bs),
     advance r4 (len (skipn n (yielded bs)))).
Proof.
  intros Hr r1 Hc Hn Hle r3 r4. unfold epoch, init_epoch.
  rewrite Hr. fold r1. rewrite Hc. simpl. rewrite Hr. fold r1 r3.
  change (if repeat r3 then r3 else set_iterations r3 0) with r4.
  assert (Hb : batches r4 = bs) by (subst r4; now destruct (repeat self)).
  assert (Hi : _iterations_this_epoch r4 = Z.of_nat n)
    by (subst r4; destruct (repeat self); exact Hn).
  rewrite Hb.
  rewrite <- (firstn_skipn n (yielded bs)) at 1.
  assert (Hlen : len (firstn n (yielded bs)) = Z.of_nat n).
  { unfold len. rewrite length_firstn. lia. }
  rewrite epoch_loop_skip by lia.
  rewrite epoch_loop_emit_all by lia.
  change (batches (advance r4 (len (skipn n (yielded bs)))))
    with (batches r4).
  now rewrite Hb.
Qed.

(** An epoch whose batches cannot be generated yields nothing. *)
Lemma epoch_create_fails self e :
  fst (create_batches sample
         (if _restored_from_state self
          then set_random_shuffler self (_random_state_this_epoch self)
          else set_random_state_this_epoch self (random_shuffler self)))
  = Some e ->
  yielded (fst (epoch sample self)) = [].
Proof.
  intro H. unfold epoch, init_epoch.
  destruct (create_batches sample _) as [[e'|] s]; [reflexivity|discriminate].
Qed.

Lemma iter_S (epochs : nat) self :
  __iter__ sample (S epochs) self
  = let (out, self) := epoch sample self in
    match raised out with
    | Some _ => (out, self)
    | None =>
        if repeat self then
          let (k, self') := __iter__ sample epochs self in
          (yield_all (yielded out) k, self')
        else (out, self)
    end.
Proof. reflexivity. Qed.

Lemma skipn_app_le {B} (n : nat) (l1 l2 : list B) :
  (n <= length l1)%nat -> skipn n (l1 ++ l2) = skipn n l1 ++ l2.
Proof.
  intro H. rewrite skipn_app.
  replace (n - length l1)%nat with 0%nat by lia. reflexivity.
Qed.


(** *** The configuration is never touched *)








(** *** Coverage of an epoch

    With a shuffler whose draws are permutations, an epoch that starts
    from an object holding a shuffler state, and was not restored, yields
    every example of the dataset exactly once. *)

Lemma reorder_perm self (minibatch : list A) :
  Permutation (reorder self minibatch) minibatch.
Proof.
  unfold reorder. destruct (sort_within_batch self); [|reflexivity].
  destruct (sort self).
  - symmetry. apply Permutation_rev.
  - apply sort_reverse_perm.
Qed.

Lemma trace_concat (minibatches : list (list A)) self :
  Permutation (concat (map fst (trace self minibatches)))
    (concat minibatches).
Proof.
  rewrite trace_batches.
  induction minibatches as [|mb rest IH]; simpl; [reflexivity|].
  apply Permutation_app; [apply reorder_perm|exact IH].
Qed.

Lemma data_perm self (s : RState) :
  (forall s n, Permutation (fst (sample s n)) (seq 0 n)) ->
  random_shuffler self = Some s ->
  exists xs s',
    data sample self = (inr xs, set_random_shuffler self (Some s'))
    /\ Permutation xs (dataset self).
Proof.
  intros Hperm Hrs. unfold data.
  assert (Hid : self = set_random_shuffler self (Some s))
    by (rewrite <- Hrs; now rewrite set_random_shuffler_id).
  destruct (sort self).
  - exists (sorted (sort_key self) (dataset self)), s.
    split; [now rewrite <- Hid|apply sorted_perm].
  - destruct (shuffle self).
    + rewrite Hrs. unfold RandomShuffler_call. rewrite length_seq.
      specialize (Hperm s (length (dataset self))).
      destruct (sample s (length (dataset self))) as [idx s'].
      simpl in Hperm. eexists _, s'. split; [reflexivity|].
      apply pick_perm.
      rewrite <- (length_seq 0 (length (dataset self))) at 2.
      rewrite pick_perm; [reflexivity|]. now rewrite length_seq.
    + exists (dataset self), s. split; [now rewrite <- Hid|reflexivity].
Qed.

Lemma create_batches_coverage self (s : RState) :
  (forall s n, Permutation (fst (sample s n)) (seq 0 n)) ->
  random_shuffler self = Some s ->
  exists bs s',
    create_batches sample self
    = (None, set_batches (set_random_shuffler self (Some s')) (finished bs))
    /\ Permutation (concat bs) (dataset self).
Proof.
  intros Hperm Hrs. unfold create_batches.
  destruct (data_perm self Hperm Hrs) as (xs & s1 & -> & Hxs).
  cbn [cls sort batch_size batch_size_fn sort_key shuffle sort_within_batch
       random_shuffler set_random_shuffler].
  assert (Hbatch :
            exists bs s',
              (@None pyexn,
               set_batches (set_random_shuffler self (Some s1))
                 (finished (batch xs (batch_size self) (batch_size_fn self))))
              = (None,
                 set_batches (set_random_shuffler self (Some s')) (finished bs))
              /\ Permutation (concat bs) (dataset self)).
  { eexists _, s1. split; [reflexivity|]. now rewrite batch_concat. }
  destruct (cls self); [exact Hbatch|].
  destruct (sort self); [exact Hbatch|].
  unfold pool.
  destruct (pool_windows_injected sample
              (batch xs (batch_size self * pool_default_lookahead)
                 (batch_size_fn self))
              (batch_size self) (sort_key self) (batch_size_fn self)
              (shuffle self) (sort_within_batch self) Hperm s1)
    as (bs & s' & Hpool & Hbs).
  destruct (pool_windows _ _ _ _ _ _ _ _) as [out rs].
  injection Hpool as -> ->.
  exists bs, s'. split; [reflexivity|].
  rewrite batch_concat in Hbs. now rewrite Hbs.
Qed.

Lemma epoch_coverage self (s : RState) :
  (forall s n, Permutation (fst (sample s n)) (seq 0 n)) ->
  _restored_from_state self = false ->
  random_shuffler self = Some s ->
  raised (fst (epoch sample self)) = None
  /\ Permutation (concat (map fst (yielded (fst (epoch sample self)))))
       (dataset self).
Proof.
  intros Hperm Hr Hrs.
  set (s1 := set_random_state_this_epoch self (random_shuffler self)).
  destruct (@create_batches_coverage s1 s Hperm Hrs) as (bs & s' & Hc & Hbs).
  rewrite (@epoch_not_restored self (Some s') (finished bs) Hr Hc).
  simpl. split; [reflexivity|].
  now rewrite trace_concat.
Qed.

End IteratorFacts.

(** ** The BPTT chunker *)

(** *** Ceilings of quotients *)

Lemma ceil_div_pos (a b : Z) : 0 < b -> ceil_div a b = - ((- a) / b).
Proof.
  intro Hb. destruct b as [|p|p]; try lia.
  unfold ceil_div, Qceiling, Qfloor, Qdiv, Qinv, Qmult, Qopp, inject_Z.
  simpl. now rewrite Z.mul_1_r.
Qed.

Lemma ceil_div_bounds (a b : Z) :
  0 < b -> (ceil_div a b - 1) * b < a <= ceil_div a b * b.
Proof.
  intro Hb. rewrite ceil_div_pos by assumption.
  pose proof (Z.div_mod (- a) b ltac:(lia)) as Hdm.
  pose proof (Z.mod_pos_bound (- a) b Hb) as Hm.
  nia.
Qed.



(** *** Slices with bounds that are not negative *)





Section BPTTFacts.
Context {token : Type}.
Variable pad_token : token.
Variable numericalize : token -> Z.
Variable batch_size : Z.
Variable cur_bptt_len : Z.
Variable batch_first : bool.










End BPTTFacts.

(** ** The model at work on concrete inputs *)

Lemma example_sample_perm (s n : nat) :
  Permutation (fst (example_sample s n)) (seq 0 n).
Proof.
  unfold example_sample. simpl.
  rewrite Permutation_app_comm. now rewrite firstn_skipn.
Qed.


(** The checkpoint of an iterator that has not started holds no shuffler
    state: [random_state_this_epoch] is [None].  The replay theorem starts
    from a checkpoint taken at a [yield], where [init_epoch] has recorded
    the state. *)
Remark checkpoint_before_first_batch :
  let self := __init__ IteratorClass [10; 20; 30; 40; 50] (fun x => x) 2
                None None true false None None None 1%nat in
  sd_random_state_this_epoch (state_dict self) = Some None.
Proof. reflexivity. Qed.

(** Coverage by [pool] with shuffling and sorting on five examples. *)
Lemma batch_pool_coverage_witness :
  (forall s n, Permutation (fst (example_sample s n)) (seq 0 n))
  /\ let out := fst (pool example_sample [3; 1; 2; 5; 4] 2 (fun x => x) None
                       (Some (Some 1%nat)) true true 100) in
     raised out = None /\ Permutation (concat (yielded out)) [3; 1; 2; 5; 4].
Proof.
  split; [exact example_sample_perm|].
  exact (proj2 (proj2 (@batch_pool_coverage Z nat example_sample
                         [3; 1; 2; 5; 4] 2 None))
           example_sample_perm (fun x => x) 1%nat true true 100).
Defined.


(** [pool] with [shuffle=True] and no shuffler, on one example. *)
Lemma pool_fallback_shuffler_raises_witness :
  [5] <> []
  /\ fst (pool example_sample [5] 2 (fun x => x) None None true false 100)
     = Emitted [] (Some TypeError).
Proof.
  split; [discriminate|].
  apply (@pool_fallback_shuffler_raises Z nat example_sample [5] 2
           (fun x => x) None false 100).
  discriminate.
Defined.






(** C7. The carry-over of [LazyBPTTIterator] loses tokens.  With a buffer
    of two examples and windows of two steps, the token stream of a buffer
    holds four tokens.
    - [get_contiguous_buffer] on the examples [1 2 3 4 5] and [6] returns
      the stream [1 2 3 4] and leaves [6] as the carry-over: token [5],
      left over from the first example, is dropped when the second example
      starts the carry-over afresh.
    - Called next with that carry-over and the examples [7] and [8], it
      returns [6 7 8]: the streams, concatenated, are not the tokens of
      the examples.
    - Through [__iter__], where [clear_buffer] empties the carry-over after
      every buffer, the streams are [1 2 3 4] and [7 8]: tokens [5] and [6]
      are both lost. *)
Theorem lazy_bptt_carry_over_loses_tokens :
  get_contiguous_buffer 2 2 [[1; 2; 3; 4; 5]; [6]] [] = ([1; 2; 3; 4], [6])
  /\ get_contiguous_buffer 2 2 [[7]; [8]] [6] = ([6; 7; 8], [])
  /\ [1; 2; 3; 4] ++ [6; 7; 8] <> concat [[1; 2; 3; 4; 5]; [6]; [7]; [8]]
  /\ consumed_streams 0 (fun x : Z => x) 1 2 false 2
       [[1; 2; 3; 4; 5]; [6]; [7]; [8]] [] []
     = [[1; 2; 3; 4]; [7; 8]]
  /\ concat (consumed_streams 0 (fun x : Z => x) 1 2 false 2
               [[1; 2; 3; 4; 5]; [6]; [7]; [8]] [] [])
     <> concat [[1; 2; 3; 4; 5]; [6]; [7]; [8]].
Proof.
  split; [reflexivity|]. split; [reflexivity|].
  split; [discriminate|]. split; [vm_compute; reflexivity|].
  vm_compute. discriminate.
Qed.

(** * Part II, continued *)

(** ** More on [batch] *)

Lemma ceil_div_unique (a b r : Z) :
  0 < b -> (r - 1) * b < a <= r * b -> ceil_div a b = r.
Proof.
  intros Hb Hr. pose proof (ceil_div_bounds a Hb) as Hc. nia.
Qed.

Lemma len_cons {B} (x : B) (l : list B) : len (x :: l) = 1 + len l.
Proof. unfold len. simpl length. lia. Qed.

Lemma len_app {B} (l1 l2 : list B) : len (l1 ++ l2) = len l1 + len l2.
Proof. unfold len. rewrite length_app. lia. Qed.

Lemma len_nonneg {B} (l : list B) : 0 <= len l.
Proof. unfold len. lia. Qed.

Lemma Forall_removelast_cons {B} (P : B -> Prop) (x : B) (l : list B) :
  P x -> Forall P (removelast l) -> Forall P (removelast (x :: l)).
Proof.
  intros Hx Hl. destruct l as [|y l]; [constructor|].
  change (removelast (x :: y :: l)) with (x :: removelast (y :: l)).
  now constructor.
Qed.

Section BatchMore.
Context {A : Type}.
Implicit Types (fn : size_fn A) (data minibatch : list A).

(** One turn of the loop with the count as size. *)
Lemma batch_loop_count_step (cap : Z) (ex : A) (rest : list A) minibatch
      (size_so_far : Z) :
  batch_loop count_size_fn cap (ex :: rest) minibatch size_so_far
  = if len minibatch + 1 =? cap then
      (minibatch ++ [ex]) :: batch_loop count_size_fn cap rest [] 0
    else if len minibatch + 1 >? cap then
      minibatch :: batch_loop count_size_fn cap rest [ex] 1
    else
      batch_loop count_size_fn cap rest (minibatch ++ [ex])
        (len minibatch + 1).
Proof.
  cbn [batch_loop]. unfold count_size_fn.
  now rewrite len_snoc, slice_but_last_snoc, slice_last_snoc.
Qed.

(** With the count as size and a capacity of at least one, the loop never
    overflows: it closes a batch when it holds [cap] examples. *)
Lemma batch_loop_count (cap : Z) data :
  1 <= cap ->
  forall minibatch size_so_far,
    len minibatch < cap ->
    let bs := batch_loop count_size_fn cap data minibatch size_so_far in
    Forall (fun b => 1 <= len b <= cap) bs
    /\ Forall (fun b => len b = cap) (removelast bs)
    /\ len bs = ceil_div (len minibatch + len data) cap.
Proof.
  intro Hcap. induction data as [|ex rest IH]; intros mb sz Hmb.
  - simpl. pose proof (len_nonneg mb). destruct mb as [|x mb]; simpl.
    + split; [constructor|]. split; [constructor|]. symmetry.
      apply ceil_div_unique; [lia|]. unfold len. simpl length. lia.
    + pose proof (len_cons x mb) as Hx. pose proof (len_nonneg mb).
      split; [|split].
      * constructor; [lia|constructor].
      * constructor.
      * symmetry. apply ceil_div_unique; [lia|].
        change (len (@nil A)) with 0. change (len [x :: mb]) with 1. lia.
  - cbv zeta. rewrite batch_loop_count_step.
    pose proof (len_nonneg mb). pose proof (len_nonneg rest).
    pose proof (len_cons ex rest) as Hex.
    destruct (Z.eqb_spec (len mb + 1) cap) as [E|E].
    + destruct (IH [] 0 ltac:(change (len (@nil A)) with 0; lia))
        as (F1 & F2 & F3).
      cbv zeta in *. change (len (@nil A)) with 0 in F3.
      split; [|split].
      * constructor; [rewrite len_snoc; lia|exact F1].
      * apply Forall_removelast_cons; [rewrite len_snoc; lia|exact F2].
      * rewrite len_cons, F3.
        pose proof (ceil_div_bounds (0 + len rest) (ltac:(lia) : 0 < cap))
          as Hc.
        symmetry. apply ceil_div_unique; [lia|]. nia.
    + destruct (Z.gtb_spec (len mb + 1) cap); [lia|].
      destruct (IH (mb ++ [ex]) (len mb + 1)
                  ltac:(rewrite len_snoc; lia)) as (F1 & F2 & F3).
      cbv zeta in *. rewrite len_snoc in F3.
      split; [exact F1|]. split; [exact F2|].
      rewrite F3. f_equal. lia.
Qed.

(** With a capacity of at least one, every count-based batch but the last
    is full, and the batches are as many as the ceiling of the quotient. *)
Lemma batch_count_full (cap : Z) data :
  1 <= cap ->
  Forall (fun b => len b = cap) (removelast (batch data cap None))
  /\ len (batch data cap None) = ceil_div (len data) cap.
Proof.
  intro Hcap. unfold batch.
  destruct (batch_loop_count data Hcap [] 0
              ltac:(unfold len; simpl; lia)) as (_ & H2 & H3).
  cbv zeta in *. split; assumption.
Qed.

(** X1. Count-based batches of capacity [cap >= 1]: no batch is empty or
    longer than [cap], every batch but the last holds exactly [cap]
    examples, and there are [ceil(len(data) / cap)] batches. *)
Theorem batch_count_chunks (cap : Z) data :
  1 <= cap ->
  let bs := batch data cap None in
  Forall (fun b => 1 <= len b <= cap) bs
  /\ Forall (fun b => len b = cap) (removelast bs)
  /\ len bs = ceil_div (len data) cap.
Proof.
  intro Hcap. unfold batch.
  destruct (batch_loop_count data Hcap [] 0
              ltac:(unfold len; simpl; lia)) as (H1 & H2 & H3).
  cbv zeta in *. repeat split; assumption.
Qed.

(** In the loop, a batch that is closed is empty only if the example that
    closes it overflows on its own. *)
Lemma batch_loop_no_empty fn (cap : Z) data :
  (forall ex, In ex data -> fn ex 1 0 <= cap) ->
  forall minibatch size_so_far,
    (minibatch = [] -> size_so_far = 0) ->
    Forall (fun b => b <> []) (batch_loop fn cap data minibatch size_so_far).
Proof.
  induction data as [|ex rest IH]; intros Hfit mb sz Hinv.
  - simpl. destruct mb; constructor; [discriminate|constructor].
  - cbn [batch_loop].
    assert (Hrest : forall x, In x rest -> fn x 1 0 <= cap)
      by (intros; apply Hfit; now right).
    destruct (Z.eqb_spec (fn ex (len (mb ++ [ex])) sz) cap) as [E|E].
    + constructor; [destruct mb; discriminate|]. now apply IH.
    + destruct (Z.gtb_spec (fn ex (len (mb ++ [ex])) sz) cap) as [G|G].
      * rewrite slice_but_last_snoc, slice_last_snoc. constructor.
        -- intros ->. rewrite (Hinv eq_refl) in G.
           specialize (Hfit ex (or_introl eq_refl)).
           unfold len in G. simpl in G. lia.
        -- apply IH; [assumption|discriminate].
      * apply IH; [assumption|]. destruct mb; discriminate.
Qed.

(** X2. When no example exceeds the capacity on its own, that is when the
    size function gives at most [cap] for a batch that holds the example
    alone, no emitted batch is empty.  When the first example does exceed
    it, the first emitted batch is empty and the example opens the
    second. *)
Theorem batch_no_empty_batch fn (cap : Z) data :
  ((forall ex, In ex data -> fn ex 1 0 <= cap) ->
   Forall (fun b => b <> []) (batch data cap (Some fn)))
  /\ (forall ex rest,
         data = ex :: rest ->
         fn ex 1 0 > cap ->
         batch data cap (Some fn)
         = [] :: batch_loop fn cap rest [ex] (fn ex 1 0)).
Proof.
  split.
  - intro Hfit. unfold batch. now apply batch_loop_no_empty.
  - intros ex rest -> Hgt. unfold batch. cbn [batch_loop app].
    change (len [ex]) with 1.
    destruct (Z.eqb_spec (fn ex 1 0) cap); [lia|].
    destruct (Z.gtb_spec (fn ex 1 0) cap); [|lia].
    reflexivity.
Qed.

Lemma total_snoc (tokens : A -> Z) (l : list A) (x : A) :
  total tokens (l ++ [x]) = total tokens l + tokens x.
Proof.
  unfold total. induction l as [|y l IH]; simpl; [lia|].
  simpl in IH. rewrite IH. lia.
Qed.

(** One turn of the loop with the token-counting size function, whose
    running size is the number of tokens of the open batch. *)
Lemma batch_loop_token_step (tokens : A -> Z) (cap : Z) (ex : A)
      (rest : list A) minibatch :
  batch_loop (token_size_fn tokens) cap (ex :: rest) minibatch
    (total tokens minibatch)
  = if total tokens (minibatch ++ [ex]) =? cap then
      (minibatch ++ [ex])
        :: batch_loop (token_size_fn tokens) cap rest [] (total tokens [])
    else if total tokens (minibatch ++ [ex]) >? cap then
      minibatch
        :: batch_loop (token_size_fn tokens) cap rest [ex] (total tokens [ex])
    else
      batch_loop (token_size_fn tokens) cap rest (minibatch ++ [ex])
        (total tokens (minibatch ++ [ex])).
Proof.
  cbn [batch_loop]. unfold token_size_fn.
  rewrite slice_but_last_snoc, slice_last_snoc, total_snoc.
  replace (0 + tokens ex) with (total tokens [ex])
    by (unfold total; simpl; lia).
  reflexivity.
Qed.

(** The open batch holds fewer tokens than the capacity unless it is the
    example that closed the previous batch. *)
Lemma batch_loop_token_bound (tokens : A -> Z) (cap : Z) data :
  forall minibatch,
    total tokens minibatch < cap \/ (length minibatch <= 1)%nat ->
    Forall (fun b => total tokens b <= cap \/ (length b <= 1)%nat)
      (batch_loop (token_size_fn tokens) cap data minibatch
         (total tokens minibatch)).
Proof.
  induction data as [|ex rest IH]; intros mb Hinv.
  - simpl. destruct mb; constructor; [|constructor].
    destruct Hinv; [left; lia|now right].
  - rewrite batch_loop_token_step.
    destruct (Z.eqb_spec (total tokens (mb ++ [ex])) cap) as [E|E].
    + constructor; [left; lia|].
      apply (IH []). right. simpl. lia.
    + destruct (Z.gtb_spec (total tokens (mb ++ [ex])) cap) as [G|G].
      * constructor.
        -- destruct Hinv; [left; lia|now right].
        -- apply IH. right. simpl. lia.
      * apply IH. left. lia.
Qed.

(** X3. With the size function that adds the tokens of each example,
    every emitted batch of two examples or more holds at most [cap]
    tokens: only a batch of a single example can exceed the capacity. *)
Theorem batch_token_bound (tokens : A -> Z) (cap : Z) data :
  Forall (fun b => total tokens b <= cap \/ (length b <= 1)%nat)
    (batch data cap (Some (token_size_fn tokens))).
Proof.
  unfold batch.
  change 0 with (total tokens []) at 1.
  apply batch_loop_token_bound. right. simpl. lia.
Qed.

(** After the first example, the count-based loop with a capacity below
    one closes a batch at every example. *)
Lemma batch_loop_singletons (cap : Z) data :
  cap <= 0 ->
  forall x size_so_far,
    batch_loop count_size_fn cap data [x] size_so_far
    = map (fun y => [y]) (x :: data).
Proof.
  intro Hcap. induction data as [|ex rest IH]; intros x sz; [reflexivity|].
  rewrite batch_loop_count_step. change (len [x]) with 1.
  destruct (Z.eqb_spec (1 + 1) cap); [lia|].
  destruct (Z.gtb_spec (1 + 1) cap); [|lia].
  rewrite IH. reflexivity.
Qed.

(** X4. With the count as size and a capacity of zero or less, a source
    that is not empty yields an empty batch first and then every example
    in a batch of its own. *)
Theorem batch_capacity_below_one (cap : Z) data :
  cap <= 0 -> data <> [] ->
  batch data cap None = [] :: map (fun y => [y]) data.
Proof.
  intros Hcap Hne. destruct data as [|x rest]; [congruence|].
  unfold batch. rewrite batch_loop_count_step. change (len (@nil A)) with 0.
  destruct (Z.eqb_spec (0 + 1) cap); [lia|].
  destruct (Z.gtb_spec (0 + 1) cap); [|lia].
  now rewrite batch_loop_singletons.
Qed.

(** Count-based batching of a concatenation whose first part fills whole
    batches is the concatenation of the batchings. *)
Lemma batch_loop_count_app (cap : Z) (l1 l2 : list A) :
  1 <= cap ->
  forall minibatch size_so_far (k : Z),
    len minibatch < cap ->
    len minibatch + len l1 = k * cap ->
    batch_loop count_size_fn cap (l1 ++ l2) minibatch size_so_far
    = batch_loop count_size_fn cap l1 minibatch size_so_far
      ++ batch_loop count_size_fn cap l2 [] 0.
Proof.
  intro Hcap. induction l1 as [|ex rest IH]; intros mb sz k Hmb Hk.
  - pose proof (len_nonneg mb). change (len (@nil A)) with 0 in Hk.
    assert (k = 0) by nia. subst k.
    destruct mb as [|x mb]; [|rewrite len_cons in Hk; pose proof (len_nonneg mb); lia].
    simpl. destruct l2 as [|y l2]; [reflexivity|].
    now rewrite !batch_loop_count_step.
  - cbn [app]. rewrite !batch_loop_count_step.
    rewrite len_cons in Hk. pose proof (len_nonneg mb).
    destruct (Z.eqb_spec (len mb + 1) cap) as [E|E].
    + rewrite (IH [] 0 (k - 1)); [reflexivity|change (len (@nil A)) with 0; lia|].
      change (len (@nil A)) with 0. lia.
    + destruct (Z.gtb_spec (len mb + 1) cap); [lia|].
      apply (IH _ _ k); rewrite ?len_snoc; lia.
Qed.

Lemma batch_count_app (cap : Z) (l1 l2 : list A) (k : Z) :
  1 <= cap -> len l1 = k * cap ->
  batch (l1 ++ l2) cap None = batch l1 cap None ++ batch l2 cap None.
Proof.
  intros Hcap Hk. unfold batch.
  apply batch_loop_count_app with (k := k);
    try assumption; change (len (@nil A)) with 0; lia.
Qed.

(** Batching each window of a count-based batching with a capacity that is
    a multiple of [cap] is batching the whole. *)
Lemma batch_of_windows (cap m : Z) data :
  1 <= cap -> 1 <= m ->
  flat_map (fun p => batch p cap None) (batch data (cap * m) None)
  = batch data cap None.
Proof.
  intros Hcap Hm.
  destruct (@batch_count_full (cap * m) data ltac:(nia)) as (Hfull & _).
  rewrite <- (batch_concat data (cap * m) None) at 2.
  induction (batch data (cap * m) None) as [|w ws IH]; [reflexivity|].
  destruct ws as [|w' ws].
  - simpl. now rewrite !app_nil_r.
  - change (removelast (w :: w' :: ws)) with (w :: removelast (w' :: ws))
      in Hfull.
    inversion Hfull as [|? ? Hw Hrest]; subst.
    change (flat_map (fun p => batch p cap None) (w :: w' :: ws))
      with (batch w cap None
            ++ flat_map (fun p => batch p cap None) (w' :: ws)).
    rewrite (IH Hrest).
    change (concat (w :: w' :: ws)) with (w ++ concat (w' :: ws)).
    symmetry. apply batch_count_app with (k := m); [assumption|lia].
Qed.

End BatchMore.

Lemma batch_count_chunks_witness :
  1 <= 3
  /\ len (batch [1; 2; 3; 4; 5; 6; 7] 3 None) = ceil_div 7 3
  /\ Forall (fun b => len b = 3) (removelast (batch [1; 2; 3; 4; 5; 6; 7] 3 None)).
Proof.
  split; [lia|].
  destruct (@batch_count_chunks Z 3 [1; 2; 3; 4; 5; 6; 7] ltac:(lia))
    as (_ & H2 & H3).
  split; [exact H3|exact H2].
Defined.

Lemma batch_no_empty_batch_witness :
  (forall ex, In ex [2; 3; 1] -> token_size_fn (fun x => x) ex 1 0 <= 4)
  /\ Forall (fun b => b <> [])
       (batch [2; 3; 1] 4 (Some (token_size_fn (fun x => x)))).
Proof.
  assert (H : forall ex, In ex [2; 3; 1] ->
                         token_size_fn (fun x => x) ex 1 0 <= 4).
  { intros ex [<-|[<-|[<-|[]]]]; unfold token_size_fn; lia. }
  split; [exact H|].
  exact (proj1 (@batch_no_empty_batch Z (token_size_fn (fun x => x)) 4
                  [2; 3; 1]) H).
Defined.

Lemma batch_capacity_below_one_witness :
  0 <= 0 /\ [7; 8] <> [] /\ batch [7; 8] 0 None = [[]; [7]; [8]].
Proof.
  split; [lia|]. split; [discriminate|].
  apply (@batch_capacity_below_one Z 0 [7; 8]); [lia|discriminate].
Defined.

(** ** More on [pool] *)

Section PoolMore.
Context {A : Type}.
Variable RState : Type.
Variable sample : RState -> nat -> list nat * RState.

Implicit Types (key : A -> Z) (batch_size_fn : option (size_fn A)).

(** X5. Without sorting and without shuffling, [pool] with the count as
    size emits exactly the batches of [batch]: cutting the source in
    windows of [lookahead] batches and batching each window changes
    nothing. *)
Theorem pool_plain_is_batch (data : list A) (cap lookahead : Z) key
        batch_size_fn (random_shuffler : option (RandomShuffler RState)) :
  1 <= cap -> 1 <= lookahead ->
  batch_size_fn = None \/ batch_size_fn = pool_default_size_fn ->
  fst (pool sample data cap key batch_size_fn random_shuffler false false
         lookahead)
  = finished (batch data cap None).
Proof.
  intros Hcap Hl Hfn. unfold pool. rewrite pool_windows_no_shuffle.
  cbn [fst]. f_equal.
  assert (E : forall l c, batch l c batch_size_fn = batch l c (@None (size_fn A))).
  { intros. destruct Hfn as [->| ->]; reflexivity. }
  rewrite E. rewrite <- (batch_of_windows data Hcap Hl).
  apply flat_map_ext. intro p. apply E.
Qed.

(** An injected shuffler that holds a state never makes [pool] raise. *)
Lemma pool_windows_injected_ok (windows : list (list A)) (cap : Z) key
      batch_size_fn shuffle sort_within_batch :
  forall s,
    raised (fst (pool_windows sample windows cap key batch_size_fn
                   (Some (Some s)) shuffle sort_within_batch)) = None.
Proof.
  induction windows as [|p rest IH]; intro s; simpl; [reflexivity|].
  destruct shuffle.
  - destruct (sample s _) as [idx s1]. simpl.
    specialize (IH s1).
    destruct (pool_windows _ rest _ _ _ _ _ _) as [k rs]. exact IH.
  - specialize (IH s).
    destruct (pool_windows _ rest _ _ _ _ _ _) as [k rs]. exact IH.
Qed.

(** X6. When [pool] raises.  [pool] ends with an exception exactly when
    it is asked to shuffle a source that is not empty without a usable
    shuffler: none injected, or one that holds no state.  The exception is
    [TypeError], and nothing has been emitted when it is raised. *)
Theorem pool_raises_iff (data : list A) (cap lookahead : Z) key batch_size_fn
        (random_shuffler : option (RandomShuffler RState))
        (shuffle sort_within_batch : bool) :
  let out := fst (pool sample data cap key batch_size_fn random_shuffler
                    shuffle sort_within_batch lookahead) in
  (raised out <> None <->
   shuffle = true /\ data <> []
   /\ (random_shuffler = None \/ random_shuffler = Some None))
  /\ (raised out <> None ->
      raised out = Some TypeError /\ yielded out = []).
Proof.
  unfold pool.
  pose proof (@batch_nonempty A data (cap * lookahead) batch_size_fn) as Hne.
  assert (Hnil : data = [] -> batch data (cap * lookahead) batch_size_fn = [])
    by (intros ->; reflexivity).
  destruct shuffle.
  - destruct (batch data (cap * lookahead) batch_size_fn) as [|p rest] eqn:Ew.
    + simpl. split; [|congruence]. split; [congruence|].
      intros (_ & Hd & _). now apply Hne in Hd.
    + assert (Hd : data <> []) by (intro E; apply Hnil in E; discriminate).
      destruct random_shuffler as [[s|]|].
      * pose proof (pool_windows_injected_ok (p :: rest) cap key batch_size_fn
                      true sort_within_batch s) as Hok.
        cbv zeta. split; [|intro H; exfalso; apply H; exact Hok].
        split; [intro H; exfalso; apply H; exact Hok|].
        intros (_ & _ & [H|H]); discriminate.
      * simpl. split; [|intros _; split; reflexivity].
        split; [intros _|discriminate]. repeat split; auto.
      * simpl. split; [|intros _; split; reflexivity].
        split; [intros _|discriminate]. repeat split; auto.
  - rewrite pool_windows_no_shuffle. simpl. split; [|congruence].
    split; [congruence|]. intros (H & _). discriminate.
Qed.

End PoolMore.

Lemma pool_plain_is_batch_witness :
  1 <= 2 /\ 1 <= 100
  /\ fst (pool example_sample [3; 1; 2; 5; 4] 2 (fun x => x) None None false
            false 100)
     = finished (batch [3; 1; 2; 5; 4] 2 None).
Proof.
  split; [lia|]. split; [lia|].
  apply (@pool_plain_is_batch Z nat example_sample [3; 1; 2; 5; 4] 2 100
           (fun x => x) None None); try lia.
  now left.
Defined.

(** ** More on the iterator *)

Section IteratorMore.
Context {A : Type}.
Variable RState : Type.
Variable sample : RState -> nat -> list nat * RState.

Implicit Types (self fresh : @Iterator A RState).

Hypothesis sample_perm :
  forall s n, Permutation (fst (sample s n)) (seq 0 n).






(** The first epoch after a restore, whatever the restored count: the
    batches that it counts are skipped, all of them when it counts more
    than the epoch has. *)
Lemma epoch_restored_any self rs bs (n : nat) :
  _restored_from_state self = true ->
  let r1 := set_random_shuffler self (_random_state_this_epoch self) in
  create_batches sample r1
  = (None, set_batches (set_random_shuffler r1 rs) bs) ->
  _iterations_this_epoch self = Z.of_nat n ->
  let r3 := set_restored_from_state
              (set_batches (set_random_shuffler r1 rs) bs) false in
  let r4 := if repeat self then r3 else set_iterations r3 0 in
  epoch sample self
  = (Emitted (trace r4 (skipn n (yielded bs))) (raised bs),
     advance r4 (len (skipn n (yielded bs)))).
Proof.
  intros Hr r1 Hc Hn r3 r4.
  destruct (le_lt_dec n (length (yielded bs))) as [Hle|Hgt].
  - exact (@epoch_restored A RState sample self rs bs n Hr Hc Hn Hle).
  - rewrite skipn_all2 by lia. unfold epoch, init_epoch.
    rewrite Hr. fold r1. rewrite Hc. simpl. rewrite Hr. fold r1 r3.
    change (if repeat r3 then r3 else set_iterations r3 0) with r4.
    assert (Hb : batches r4 = bs) by (subst r4; now destruct (repeat self)).
    assert (Hi : _iterations_this_epoch r4 = Z.of_nat n)
      by (subst r4; destruct (repeat self); exact Hn).
    rewrite Hb. rewrite <- (app_nil_r (yielded bs)) at 1.
    rewrite epoch_loop_skip by (unfold len; lia).
    cbn [epoch_loop]. rewrite Hb. change (len (@nil (list A))) with 0.
    now rewrite advance_0.
Qed.

(** The checkpoint at a yield of an epoch that is not a resumed one. *)
Lemma epoch_checkpoints_fresh self (j : nat) (b : list A)
      (sd : StateDict RState) :
  _restored_from_state self = false ->
  nth_error (yielded (fst (epoch sample self))) j = Some (b, sd) ->
  sd_iterations sd
  = Some ((if repeat self then iterations self else 0) + Z.of_nat j + 1)
  /\ sd_iterations_this_epoch sd = Some (0 + Z.of_nat j + 1)
  /\ sd_random_state_this_epoch sd = Some (random_shuffler self).
Proof.
  intros Hr Hnth.
  set (s1 := set_random_state_this_epoch self (random_shuffler self)).
  destruct (@create_batches_norm A RState sample s1 s1
              (same_config_refl s1) eq_refl)
    as [(e & Hc & _)|(rs & bs & Hc & _)].
  { rewrite (@epoch_create_fails A RState sample self e) in Hnth.
    - destruct j; discriminate.
    - rewrite Hr. fold s1. now rewrite Hc. }
  pose proof (@epoch_not_restored A RState sample self rs bs Hr Hc) as He.
  cbv zeta in He. rewrite He in Hnth. cbn [fst yielded] in Hnth.
  apply trace_nth_error in Hnth. destruct Hnth as [-> _].
  destruct (repeat self); cbn; repeat split; f_equal; lia.
Qed.

(** X8. The counters that a checkpoint holds.  In an epoch, the checkpoint
    taken at the yield of index [j] counts [j + 1] more batches than the
    epoch started with: [iterations_this_epoch] starts from zero, or from
    the restored count after [load_state_dict]; [iterations] starts from
    its value with [repeat], and from zero without [repeat], also after a
    restore.  The shuffler state it holds is the one the epoch started
    from. *)
Theorem epoch_counters self (j : nat) (b : list A) (sd : StateDict RState) :
  (_restored_from_state self = true -> 0 <= _iterations_this_epoch self) ->
  nth_error (yielded (fst (epoch sample self))) j = Some (b, sd) ->
  sd_iterations sd
  = Some ((if repeat self then iterations self else 0) + Z.of_nat j + 1)
  /\ sd_iterations_this_epoch sd
     = Some ((if _restored_from_state self
              then _iterations_this_epoch self else 0) + Z.of_nat j + 1)
  /\ sd_random_state_this_epoch sd
     = Some (if _restored_from_state self
             then _random_state_this_epoch self else random_shuffler self).
Proof.
  intros Hpos Hnth. destruct (_restored_from_state self) eqn:Hr.
  - set (r1 := set_random_shuffler self (_random_state_this_epoch self)).
    destruct (@create_batches_norm A RState sample r1 r1
                (same_config_refl r1) eq_refl)
      as [(e & Hc & _)|(rs & bs & Hc & _)].
    { rewrite (@epoch_create_fails A RState sample self e) in Hnth.
      - destruct j; discriminate.
      - rewrite Hr. fold r1. now rewrite Hc. }
    specialize (Hpos eq_refl).
    pose proof (@epoch_restored_any self rs bs
                  (Z.to_nat (_iterations_this_epoch self)) Hr Hc
                  ltac:(lia)) as He.
    cbv zeta in He. rewrite He in Hnth. cbn [fst yielded] in Hnth.
    apply trace_nth_error in Hnth. destruct Hnth as [-> _].
    destruct (repeat self); cbn; repeat split; f_equal; lia.
  - exact (@epoch_checkpoints_fresh self j b sd Hr Hnth).
Qed.

(** An epoch that is not a resumed one ends with the flag unset and with
    [iterations] no smaller than it started, or the epoch raised. *)
Lemma epoch_end_state self :
  _restored_from_state self = false ->
  0 <= iterations self ->
  raised (fst (epoch sample self)) = None ->
  _restored_from_state (snd (epoch sample self)) = false
  /\ 0 <= iterations (snd (epoch sample self)).
Proof.
  intros Hr Hpos Hok.
  set (s1 := set_random_state_this_epoch self (random_shuffler self)).
  destruct (@create_batches_norm A RState sample s1 s1
              (same_config_refl s1) eq_refl)
    as [(e & Hc & _)|(rs & bs & Hc & _)].
  - exfalso. revert Hok. unfold epoch, init_epoch. rewrite Hr. fold s1.
    rewrite Hc. discriminate.
  - rewrite (@epoch_not_restored A RState sample self rs bs Hr Hc).
    cbn [snd]. pose proof (len_nonneg (yielded bs)).
    destruct (repeat self); cbn; split; try assumption; lia.
Qed.

(** X9. In a run that was not resumed from a checkpoint, over any number
    of epochs, every checkpoint has
    [1 <= iterations_this_epoch <= iterations]. *)
Theorem counters_invariant (epochs : nat) self :
  _restored_from_state self = false ->
  0 <= iterations self ->
  Forall (fun e =>
            exists i t,
              sd_iterations (snd e) = Some i
              /\ sd_iterations_this_epoch (snd e) = Some t
              /\ 1 <= t <= i)
    (yielded (fst (__iter__ sample epochs self))).
Proof.
  revert self. induction epochs as [|n IH]; intros self Hr Hpos;
    [constructor|].
  rewrite iter_S.
  assert (Hepoch :
            Forall (fun e =>
                      exists i t,
                        sd_iterations (snd e) = Some i
                        /\ sd_iterations_this_epoch (snd e) = Some t
                        /\ 1 <= t <= i)
              (yielded (fst (epoch sample self)))).
  { rewrite Forall_forall. intros [b sd] Hin.
    apply In_nth_error in Hin. destruct Hin as (j & Hj).
    destruct (@epoch_checkpoints_fresh self j b sd Hr Hj)
      as (Hi & Ht & _).
    eexists _, _. cbn [snd].
    split; [exact Hi|]. split; [exact Ht|].
    destruct (repeat self); lia. }
  pose proof (@epoch_end_state self Hr Hpos) as Hend.
  destruct (epoch sample self) as [out s1]. cbn [fst snd] in *.
  destruct (raised out); [exact Hepoch|].
  destruct (repeat s1); [|exact Hepoch].
  destruct (Hend eq_refl) as [Hr1 Hpos1].
  specialize (IH s1 Hr1 Hpos1).
  destruct (__iter__ sample n s1) as [k s2]. cbn [fst yielded yield_all] in *.
  apply Forall_app. split; assumption.
Qed.

(** Without shuffling, [create_batches] reads the configuration only. *)
Lemma create_batches_no_shuffle (a b : @Iterator A RState) :
  same_config a b ->
  sort a = true \/ shuffle a = false ->
  exists bs,
    create_batches sample a = (None, set_batches a (finished bs))
    /\ create_batches sample b = (None, set_batches b (finished bs)).
Proof.
  intros (Hc & Hd & Hb & Hf & Hk & _ & _ & Hsh & Hs & Hw) Hno.
  unfold create_batches, data, pool.
  rewrite Hs, Hsh in *. rewrite Hd.
  destruct (sort b) eqn:Es.
  - rewrite Hs, Hc, Hb, Hf, Hk, Es. eexists.
    split; destruct (cls b); reflexivity.
  - destruct Hno as [Hno|Hno]; [discriminate|]. rewrite Hno.
    rewrite Hs, Hc, Hb, Hf, Hk, Hsh, Hw, Es, Hno.
    destruct (cls b).
    + eexists. split; reflexivity.
    + rewrite !pool_windows_no_shuffle.
      rewrite !set_random_shuffler_id. eexists. split; reflexivity.
Qed.

(** X10. An iterator that does not shuffle, because [sort] is set or
    [shuffle] is not, yields the same batches in every epoch and under
    every seed: two objects with the same configuration, neither resumed,
    yield the same batches whatever their counters and shufflers; the
    epoch does not raise and leaves the shuffler as it was. *)
Theorem epoch_without_shuffling (a b : @Iterator A RState) :
  same_config a b ->
  sort a = true \/ shuffle a = false ->
  _restored_from_state a = false ->
  _restored_from_state b = false ->
  map fst (yielded (fst (epoch sample a)))
  = map fst (yielded (fst (epoch sample b)))
  /\ raised (fst (epoch sample a)) = None
  /\ random_shuffler (snd (epoch sample a)) = random_shuffler a.
Proof.
  intros Hcfg Hno Hra Hrb.
  set (a1 := set_random_state_this_epoch a (random_shuffler a)).
  set (b1 := set_random_state_this_epoch b (random_shuffler b)).
  assert (Hcfg1 : same_config a1 b1)
    by (revert Hcfg; unfold same_config; simpl; tauto).
  destruct (@create_batches_no_shuffle a1 b1 Hcfg1 Hno) as (bs & Ha & Hb).
  rewrite <- (set_random_shuffler_id a1) in Ha at 2.
  rewrite <- (set_random_shuffler_id b1) in Hb at 2.
  rewrite (@epoch_not_restored A RState sample a _ _ Hra Ha).
  rewrite (@epoch_not_restored A RState sample b _ _ Hrb Hb).
  cbn [fst snd yielded raised finished]. rewrite !trace_batches.
  split; [|split].
  - f_equal. apply reorder_same_config.
    destruct Hcfg as (H1 & H2 & H3 & H4 & H5 & H6 & Hrep & H8 & H9 & H10).
    unfold same_config. rewrite Hrep.
    destruct (repeat b) eqn:Eb; simpl; repeat split; congruence.
  - reflexivity.
  - destruct (repeat a); reflexivity.
Qed.

(** X11. Round trip of the checkpoint record.  [load_state_dict] succeeds
    exactly when the record has the three keys; [state_dict] of the loaded
    object then returns the record, the restored flag is set, the
    configuration and the shuffler are untouched; and a record made by
    [state_dict] always loads. *)
Theorem state_dict_round_trip self (sd : StateDict RState) :
  (fst (load_state_dict self sd) = None <->
   sd_iterations sd <> None /\ sd_iterations_this_epoch sd <> None
   /\ sd_random_state_this_epoch sd <> None)
  /\ (fst (load_state_dict self sd) = None ->
      state_dict (snd (load_state_dict self sd)) = sd
      /\ _restored_from_state (snd (load_state_dict self sd)) = true
      /\ same_config (snd (load_state_dict self sd)) self
      /\ random_shuffler (snd (load_state_dict self sd))
         = random_shuffler self)
  /\ (forall other : @Iterator A RState,
         fst (load_state_dict self (state_dict other)) = None).
Proof.
  destruct sd as [[v1|] [v2|] [v3|]]; unfold load_state_dict; cbn;
    (split; [|split]);
    try reflexivity;
    try (intro H; discriminate H);
    try (split; [discriminate|intros (H1 & H2 & H3); congruence]).
  - split; [intros _; repeat split; discriminate|reflexivity].
  - intros _. repeat split; try reflexivity.
Qed.

(** X12. Checkpoints of a resumed run replay as well.  Take an iterator
    that was itself restored from a checkpoint, with a count that is not
    negative, and the checkpoint exported at the yield of index [k] of its
    first epoch.  A further instance with the same configuration that
    loads it yields exactly the batches that the resumed run yields after
    its first [k + 1], ends with the same exception if any, and leaves the
    shuffler in the same state. *)
Theorem checkpoint_replay_resumed self fresh (epochs k : nat) (b : list A)
        (sd : StateDict RState) :
  _restored_from_state self = true ->
  0 <= _iterations_this_epoch self ->
  same_config fresh self ->
  nth_error (yielded (fst (epoch sample self))) k = Some (b, sd) ->
  exists resumed,
    load_state_dict fresh sd = (None, resumed)
    /\ map fst (yielded (fst (__iter__ sample (S epochs) resumed)))
       = skipn (S k)
           (map fst (yielded (fst (__iter__ sample (S epochs) self))))
    /\ raised (fst (__iter__ sample (S epochs) resumed))
       = raised (fst (__iter__ sample (S epochs) self))
    /\ random_shuffler (snd (__iter__ sample (S epochs) resumed))
       = random_shuffler (snd (__iter__ sample (S epochs) self)).
Proof.
  intros Hr Hpos Hcfg Hnth.
  set (q1 := set_random_shuffler self (_random_state_this_epoch self)).
  destruct (@create_batches_norm A RState sample q1 q1
              (same_config_refl q1) eq_refl)
    as [(e & Hc & _)|(rs & bs & Hc & _)].
  { rewrite (@epoch_create_fails A RState sample self e) in Hnth.
    - destruct k; discriminate.
    - rewrite Hr. fold q1. now rewrite Hc. }
  set (n := Z.to_nat (_iterations_this_epoch self)).
  assert (Hn : _iterations_this_epoch self = Z.of_nat n) by (subst n; lia).
  pose proof (@epoch_restored_any self rs bs n Hr Hc Hn) as He.
  cbv zeta in He. fold q1 in He.
  set (q3 := set_restored_from_state
               (set_batches (set_random_shuffler q1 rs) bs) false) in *.
  set (q4 := if repeat self then q3 else set_iterations q3 0) in *.
  rewrite He in Hnth. cbn [fst yielded] in Hnth.
  apply trace_nth_error in Hnth. destruct Hnth as [-> Hk].
  assert (Hi4 : _iterations_this_epoch q4 = Z.of_nat n)
    by (subst q4; destruct (repeat self); exact Hn).
  assert (Hs4 : _random_state_this_epoch q4 = _random_state_this_epoch self)
    by (subst q4; now destruct (repeat self)).
  set (r0 := set_restored_from_state
               (set_random_state_this_epoch
                  (set_iterations_this_epoch
                     (set_iterations fresh
                        (iterations q4 + (Z.of_nat k + 1)))
                     (_iterations_this_epoch q4 + (Z.of_nat k + 1)))
                  (_random_state_this_epoch q4)) true).
  exists r0. split; [reflexivity|].
  set (r1 := set_random_shuffler r0 (_random_state_this_epoch r0)).
  assert (Hcfg1 : same_config r1 q1).
  { revert Hcfg. unfold same_config. simpl. tauto. }
  assert (Hrs1 : random_shuffler r1 = random_shuffler q1).
  { simpl. exact Hs4. }
  destruct (@create_batches_norm A RState sample r1 q1 Hcfg1 Hrs1)
    as [(e & _ & Hc')|(rs' & bs' & Hcr & Hc')];
    [rewrite Hc in Hc'; discriminate|].
  rewrite Hc in Hc'.
  assert (rs' = rs)
    by (apply (f_equal (fun p => random_shuffler (snd p))) in Hc';
        simpl in Hc'; congruence).
  assert (bs' = bs)
    by (apply (f_equal (fun p => batches (snd p))) in Hc';
        simpl in Hc'; congruence).
  subst rs' bs'. clear Hc'.
  assert (Hir : _iterations_this_epoch r0 = Z.of_nat (S k + n))
    by (simpl _iterations_this_epoch; lia).
  pose proof (@epoch_restored_any r0 rs bs (S k + n) eq_refl Hcr Hir) as Her.
  cbv zeta in Her. fold r1 in Her.
  set (r3 := set_restored_from_state
               (set_batches (set_random_shuffler r1 rs) bs) false) in *.
  set (r4 := if repeat r0 then r3 else set_iterations r3 0) in *.
  assert (Hrep : repeat r0 = repeat self)
    by (destruct Hcfg as (_ & _ & _ & _ & _ & _ & H & _); exact H).
  assert (Hcfg4 : same_config r4 q4).
  { subst r4 q4. rewrite Hrep. revert Hcfg. unfold same_config.
    destruct (repeat self) eqn:E; simpl; intuition congruence. }
  rewrite <- skipn_skipn in Her.
  set (rest := skipn n (yielded bs)) in *.
  assert (Hbatches :
            map fst (trace r4 (skipn (S k) rest))
            = skipn (S k) (map fst (trace q4 rest))).
  { rewrite !trace_batches, skipn_map.
    now rewrite (reorder_same_config Hcfg4). }
  assert (Hlen : len (skipn (S k) rest) = len rest - (Z.of_nat k + 1)).
  { unfold len. rewrite length_skipn. lia. }
  assert (Hsh : forall i m,
             random_shuffler (advance r4 i) = random_shuffler (advance q4 m)).
  { intros. subst r4 q4. rewrite Hrep. now destruct (repeat self). }
  rewrite !iter_S, He, Her. cbv beta iota. cbn [raised].
  destruct (raised bs) as [e|].
  { cbn [fst snd yielded raised].
    split; [exact Hbatches|]. split; [reflexivity|apply Hsh]. }
  change (repeat (advance r4 (len (skipn (S k) rest)))) with (repeat r4).
  change (repeat (advance q4 (len rest))) with (repeat q4).
  assert (Hrep4 : repeat r4 = repeat self).
  { subst r4. rewrite Hrep. simpl in Hrep.
    destruct (repeat self) eqn:E; simpl; congruence. }
  assert (Hrep4' : repeat q4 = repeat self).
  { subst q4. destruct (repeat self) eqn:E; simpl; congruence. }
  rewrite Hrep4, Hrep4'.
  destruct (repeat self) eqn:Erep.
  2:{ cbn [fst snd yielded raised].
      split; [exact Hbatches|]. split; [reflexivity|apply Hsh]. }
  assert (Hend : advance r4 (len (skipn (S k) rest)) = advance q4 (len rest)).
  { apply Iterator_ext.
    - eapply same_config_trans; [apply advance_same_config|].
      eapply same_config_trans; [exact Hcfg4|].
      apply same_config_sym, advance_same_config.
    - apply Hsh.
    - rewrite Hlen. subst r4 q4. rewrite ?Hrep, ?Erep. simpl. lia.
    - rewrite Hlen. subst r4 q4. rewrite ?Hrep, ?Erep. simpl. lia.
    - subst r4 q4. rewrite ?Hrep, ?Erep. reflexivity.
    - subst r4 q4. rewrite ?Hrep, ?Erep. reflexivity.
    - subst r4 q4. rewrite ?Hrep, ?Erep. reflexivity. }
  rewrite Hend.
  destruct (__iter__ sample epochs (advance q4 (len rest))) as [kk self'].
  cbn [fst snd yielded raised yield_all].
  rewrite !map_app, Hbatches. split; [|split; reflexivity].
  rewrite skipn_app_le; [reflexivity|].
  rewrite trace_batches, length_map. exact Hk.
Qed.

End IteratorMore.

(** ** The [epoch] property *)


Section EpochProperty.
Context {A : Type}.
Variable RState : Type.
Variable sample : RState -> nat -> list nat * RState.

Implicit Types (self : @Iterator A RState).

Hypothesis sample_perm :
  forall s n, Permutation (fst (sample s n)) (seq 0 n).





End EpochProperty.

(** ** [splits] *)

Section SplitsFacts.
Context {A : Type}.
Variable RState : Type.

Lemma splits_loop_ok (c : iterator_class)
      (datasets : list (list A * (A -> Z))) (batch_sizes : list Z)
      (kwargs : @Kwargs A) (seed : RState) :
  kw_batch_size kwargs = None -> kw_train kwargs = None ->
  forall i : nat,
    (i + length datasets <= length batch_sizes)%nat ->
    exists ret,
      splits_loop c datasets batch_sizes i kwargs seed = inr ret
      /\ length ret = length datasets
      /\ forall (j : nat) ds key,
          nth_error datasets j = Some (ds, key) ->
          exists bs,
            nth_error batch_sizes (i + j) = Some bs
            /\ nth_error ret j
               = Some (__init__ c ds key bs (kw_sort_key kwargs)
                         (kw_batch_size_fn kwargs) (Nat.eqb (i + j) 0)
                         (match kw_repeat kwargs with
                          | None => false
                          | Some b => b
                          end)
                         (kw_shuffle kwargs) (kw_sort kwargs)
                         (kw_sort_within_batch kwargs) seed).
Proof.
  intros Hb Ht. induction datasets as [|[ds key] rest IH]; intros i Hlen.
  - exists []. split; [reflexivity|]. split; [reflexivity|].
    intros [|j] ? ? H; discriminate.
  - cbn [splits_loop]. simpl length in Hlen.
    destruct (nth_error batch_sizes i) as [bs|] eqn:Ebs.
    2:{ apply nth_error_None in Ebs. lia. }
    rewrite Hb, Ht. cbn [given orb].
    destruct (IH (S i) ltac:(lia)) as (ret & -> & Hl & Hnth).
    eexists. split; [reflexivity|]. split; [simpl; now rewrite Hl|].
    intros [|j] ds' key' H.
    + injection H as <- <-. exists bs. rewrite Nat.add_0_r.
      split; [exact Ebs|reflexivity].
    + destruct (Hnth j ds' key' H) as (bs' & H1 & H2).
      exists bs'. rewrite Nat.add_succ_r. split; [exact H1|exact H2].
Qed.

(** X15. What [splits] builds.  Called with one batch size for all the
    datasets, or with at least as many batch sizes as datasets, and
    without [train] among the keywords, [splits] returns one iterator per
    dataset, in order, each over its dataset with its batch size; the
    first one only is built with [train=True].  When the flags are left
    to their defaults, the first iterator shuffles and does not sort, and
    every other one sorts, also within its batches, and does not
    shuffle. *)
Theorem splits_iterators (c : iterator_class)
        (datasets : list (list A * (A -> Z))) (batch_sizes : option (list Z))
        (kwargs : @Kwargs A) (seed : RState) (sizes : list Z) :
  kw_train kwargs = None ->
  (batch_sizes = None /\ (exists b, kw_batch_size kwargs = Some b
                                    /\ sizes = List.repeat b (length datasets)))
  \/ (batch_sizes = Some sizes /\ kw_batch_size kwargs = None
      /\ (length datasets <= length sizes)%nat) ->
  exists ret,
    splits c datasets batch_sizes kwargs seed = inr ret
    /\ length ret = length datasets
    /\ forall (j : nat) ds key,
        nth_error datasets j = Some (ds, key) ->
        exists it bs,
          nth_error ret j = Some it
          /\ nth_error sizes j = Some bs
          /\ dataset it = ds /\ batch_size it = bs
          /\ cls it = c
          /\ train it = Nat.eqb j 0
          /\ random_shuffler it = Some seed
          /\ (kw_shuffle kwargs = None -> shuffle it = Nat.eqb j 0)
          /\ (kw_sort kwargs = None -> sort it = negb (Nat.eqb j 0))
          /\ (kw_sort kwargs = None -> kw_sort_within_batch kwargs = None ->
              sort_within_batch it = negb (Nat.eqb j 0)).
Proof.
  intros Ht Hcase.
  assert (Hloop :
            exists kw,
              splits c datasets batch_sizes kwargs seed
              = splits_loop c datasets sizes 0 kw seed
              /\ kw_batch_size kw = None /\ kw_train kw = None
              /\ kw_shuffle kw = kw_shuffle kwargs
              /\ kw_sort kw = kw_sort kwargs
              /\ kw_sort_within_batch kw = kw_sort_within_batch kwargs
              /\ (length datasets <= length sizes)%nat).
  { destruct Hcase as [(-> & b & Hb & ->)|(-> & Hb & Hlen)].
    - exists (pop_batch_size kwargs). unfold splits. rewrite Hb.
      rewrite repeat_length. repeat split; auto.
    - exists kwargs. repeat split; auto. }
  destruct Hloop as (kw & -> & Hb & Ht' & Hsh & Hso & Hsw & Hlen).
  destruct (@splits_loop_ok c datasets sizes kw seed Hb Ht' 0%nat Hlen)
    as (ret & -> & Hl & Hnth).
  exists ret. split; [reflexivity|]. split; [exact Hl|].
  intros j ds key Hj. destruct (Hnth j ds key Hj) as (bs & H1 & H2).
  simpl in H1, H2. eexists _, bs. split; [exact H2|]. split; [exact H1|].
  unfold __init__; cbn. repeat split.
  - rewrite Hsh. now intros ->.
  - rewrite Hso. now intros ->.
  - rewrite Hso, Hsw. now intros -> ->.
Qed.

Lemma splits_loop_short (c : iterator_class)
      (datasets : list (list A * (A -> Z))) (kwargs : @Kwargs A)
      (seed : RState) :
  kw_batch_size kwargs = None -> kw_train kwargs = None ->
  forall (i : nat) (sizes : list Z),
    (length sizes < i + length datasets)%nat -> (i <= length sizes)%nat ->
    splits_loop c datasets sizes i kwargs seed = inl IndexError.
Proof.
  intros Hb Ht. induction datasets as [|[ds key] rest IH]; intros i sizes H1 H2.
  - simpl in H1. lia.
  - cbn [splits_loop]. destruct (nth_error sizes i) eqn:E; [|reflexivity].
    rewrite Hb, Ht. cbn [given orb].
    rewrite IH; [reflexivity|simpl in H1; lia|].
    assert (H : nth_error sizes i <> None) by congruence.
    apply nth_error_Some in H. lia.
Qed.

(** X16. When [splits] raises.  Without [batch_sizes] and without the
    keyword [batch_size] it raises [KeyError], whatever the datasets.  On
    at least one dataset: the keyword [train], or the keyword
    [batch_size] next to [batch_sizes], makes the first constructor call
    raise [TypeError], as the argument is given twice; and too few
    [batch_sizes] raise [IndexError]. *)
Theorem splits_raises (c : iterator_class)
        (datasets : list (list A * (A -> Z))) (batch_sizes : option (list Z))
        (kwargs : @Kwargs A) (seed : RState) :
  (batch_sizes = None -> kw_batch_size kwargs = None ->
   splits c datasets batch_sizes kwargs seed
   = inl (Exn (KeyError "batch_size"%string)))
  /\ (datasets <> [] ->
      (batch_sizes = None -> kw_batch_size kwargs <> None ->
       kw_train kwargs <> None ->
       splits c datasets batch_sizes kwargs seed = inl (Exn TypeError))
      /\ (forall sizes, batch_sizes = Some sizes -> sizes <> [] ->
          kw_train kwargs <> None \/ kw_batch_size kwargs <> None ->
          splits c datasets batch_sizes kwargs seed = inl (Exn TypeError))
      /\ (forall sizes, batch_sizes = Some sizes ->
          kw_train kwargs = None -> kw_batch_size kwargs = None ->
          (length sizes < length datasets)%nat ->
          splits c datasets batch_sizes kwargs seed = inl IndexError)).
Proof.
  split; [intros -> Hb; unfold splits; now rewrite Hb|].
  intro Hd. destruct datasets as [|[ds key] rest]; [contradiction|].
  split; [|split].
  - intros -> Hb Ht. unfold splits.
    destruct (kw_batch_size kwargs) as [b|]; [|contradiction].
    cbn. destruct (kw_train kwargs); [reflexivity|contradiction].
  - intros sizes -> Hs Hkw. unfold splits. cbn [splits_loop].
    destruct sizes as [|b sizes]; [contradiction|]. cbn [nth_error].
    destruct (kw_batch_size kwargs), (kw_train kwargs); try reflexivity.
    destruct Hkw; contradiction.
  - intros sizes -> Ht Hb Hlen. unfold splits.
    apply splits_loop_short; [assumption|assumption|exact Hlen|lia].
Qed.

End SplitsFacts.

(** ** [LazyIterator] and [LazyBucketIterator] *)

Section LazyFacts.
Context {A : Type}.
Variable RState : Type.
Variable sample : RState -> nat -> list nat * RState.

Implicit Types (self : @Lazy.LazyIterator A RState).

(** The loop of [consume_buffer] reorders every batch and counts it. *)
Lemma consume_loop_spec (minibatches : list (list A)) :
  forall b : @Iterator A RState,
    Lazy.consume_loop b minibatches
    = (map (reorder b) minibatches, advance b (len minibatches)).
Proof.
  induction minibatches as [|mb rest IH]; intro b.
  - change (len (@nil (list A))) with 0. now rewrite advance_0.
  - cbn [Lazy.consume_loop].
    change (set_iterations_this_epoch (set_iterations b (iterations b + 1))
              (_iterations_this_epoch (set_iterations b (iterations b + 1))
               + 1))
      with (advance b 1).
    rewrite IH, advance_add, len_cons. cbn [map].
    now rewrite (reorder_same_config (advance_same_config b 1)).
Qed.

Lemma same_setup_refl self : Lazy.same_setup self self.
Proof. repeat split. Qed.

Lemma same_setup_trans (a b c : @Lazy.LazyIterator A RState) :
  Lazy.same_setup a b -> Lazy.same_setup b c -> Lazy.same_setup a c.
Proof.
  intros (H1 & H2 & H3) (G1 & G2 & G3). split; [|split]; try congruence.
  exact (same_config_trans H1 G1).
Qed.

Lemma process_same_setup (a b : @Lazy.LazyIterator A RState) :
  Lazy.same_setup a b -> Lazy.process a = Lazy.process b.
Proof.
  intros (Hcfg & Hc & Hs). unfold Lazy.process.
  rewrite (reorder_same_config Hcfg), Hc, Hs.
  destruct Hcfg as (_ & _ & -> & -> & -> & _ & _ & _ & -> & ->).
  reflexivity.
Qed.

Lemma process_nil self : Lazy.process self [] = [].
Proof.
  unfold Lazy.process.
  destruct (Lazy.lazy_cls self), (sort (Lazy.base self)); reflexivity.
Qed.

(** Without shuffling, [consume_buffer] emits the batches of the buffer
    and reads the configuration only. *)
Lemma consume_buffer_no_shuffle self :
  sort (Lazy.base self) = true \/ shuffle (Lazy.base self) = false ->
  exists self',
    Lazy.consume_buffer sample self
    = (finished (Lazy.process self (Lazy.buffer self)), self')
    /\ Lazy.same_setup self' self
    /\ random_shuffler (Lazy.base self')
       = random_shuffler (Lazy.base self).
Proof.
  intro Hno. unfold Lazy.consume_buffer, Lazy.prepare_buffer, Lazy.process.
  destruct (sort (Lazy.base self)) eqn:Es.
  - unfold Lazy.create_batches. cbn [Lazy.base Lazy.set_buffer Lazy.lazy_cls
      Lazy.buffer Lazy.buffer_size]. rewrite Es.
    destruct (Lazy.lazy_cls self) eqn:Ec;
      cbn [Lazy.base Lazy.set_base batches set_batches yielded finished];
      rewrite consume_loop_spec;
      (eexists; split; [reflexivity|]);
      (split; [repeat split; assumption|reflexivity]).
  - destruct Hno as [Hno|Hno]; [discriminate|]. rewrite Hno.
    unfold Lazy.create_batches. rewrite Es.
    destruct (Lazy.lazy_cls self) eqn:Ec.
    + cbn [Lazy.base Lazy.set_base batches set_batches yielded finished].
      rewrite consume_loop_spec.
      eexists; split; [reflexivity|].
      split; [repeat split; assumption|reflexivity].
    + unfold pool. rewrite Hno, pool_windows_no_shuffle.
      cbn [Lazy.base Lazy.set_base batches set_batches yielded finished].
      rewrite consume_loop_spec.
      eexists; split; [reflexivity|].
      split; [repeat split; assumption|reflexivity].
Qed.

(** Without shuffling and with a buffer size of at least one, the loop
    of [__iter__] fills its buffers as [batch] fills count-based
    batches. *)
Lemma feed_no_shuffle self0 (stream : list A) :
  1 <= Lazy.buffer_size self0 ->
  sort (Lazy.base self0) = true \/ shuffle (Lazy.base self0) = false ->
  forall self sz,
    Lazy.same_setup self self0 ->
    len (Lazy.buffer self) < Lazy.buffer_size self0 ->
    exists self',
      Lazy.feed sample stream self
      = (finished
           (flat_map (Lazy.process self0)
              (batch_loop count_size_fn (Lazy.buffer_size self0) stream
                 (Lazy.buffer self) sz)),
         self')
      /\ Lazy.same_setup self' self0.
Proof.
  intros Hsize Hno. induction stream as [|ex rest IH]; intros self sz Hset Hlen.
  - cbn [Lazy.feed batch_loop].
    assert (Hno' : sort (Lazy.base self) = true
                   \/ shuffle (Lazy.base self) = false).
    { destruct Hset as ((_ & _ & _ & _ & _ & _ & _ & -> & -> & _) & _).
      exact Hno. }
    destruct (Lazy.buffer self) as [|x buf] eqn:Eb.
    + exists self. split; [reflexivity|exact Hset].
    + rewrite <- Eb.
      assert (H0 : (0 <? len (Lazy.buffer self)) = true).
      { rewrite Eb, len_cons. pose proof (len_nonneg buf).
        apply Z.ltb_lt. lia. }
      rewrite H0.
      destruct (consume_buffer_no_shuffle self Hno') as (s1 & -> & Hs1 & _).
      cbn [raised finished]. eexists. split.
      * rewrite Eb. cbn [is_empty flat_map]. rewrite app_nil_r.
        rewrite <- Eb. now rewrite (process_same_setup Hset).
      * exact (same_setup_trans Hs1 Hset).
  - cbn [Lazy.feed]. rewrite batch_loop_count_step.
    cbn [Lazy.buffer Lazy.set_buffer Lazy.buffer_size].
    rewrite len_snoc.
    assert (Hsz : Lazy.buffer_size self = Lazy.buffer_size self0)
      by apply Hset.
    rewrite Hsz.
    set (self1 := Lazy.set_buffer self (Lazy.buffer self ++ [ex])).
    assert (Hset1 : Lazy.same_setup self1 self0) by exact Hset.
    destruct (Z.eqb_spec (len (Lazy.buffer self) + 1)
                (Lazy.buffer_size self0)) as [E|E].
    + assert (Hno' : sort (Lazy.base self1) = true
                     \/ shuffle (Lazy.base self1) = false).
      { destruct Hset1 as ((_ & _ & _ & _ & _ & _ & _ & -> & -> & _) & _).
        exact Hno. }
      destruct (consume_buffer_no_shuffle self1 Hno') as (s1 & -> & Hs1 & _).
      cbn [raised finished].
      destruct (IH (Lazy.clear_buffer s1) 0) as (s2 & -> & Hs2).
      * exact (same_setup_trans Hs1 Hset1).
      * cbn. lia.
      * exists s2. split; [|exact Hs2].
        cbn [flat_map yield_all yielded raised finished].
        now rewrite (process_same_setup Hset1).
    + destruct (Z.gtb_spec (len (Lazy.buffer self) + 1)
                  (Lazy.buffer_size self0)); [lia|].
      apply (IH self1 (len (Lazy.buffer self) + 1) Hset1).
      subst self1. cbn [Lazy.buffer Lazy.set_buffer]. rewrite len_snoc. lia.
Qed.

(** With a buffer size below one the test of the loop never holds: the
    whole source ends in one buffer. *)
Lemma feed_unbounded (stream : list A) :
  forall self,
    Lazy.buffer_size self <= 0 ->
    Lazy.feed sample stream self
    = Lazy.feed sample []
        (Lazy.set_buffer self (Lazy.buffer self ++ stream)).
Proof.
  induction stream as [|ex rest IH]; intros self Hsize.
  - rewrite app_nil_r. now destruct self.
  - cbn [Lazy.feed]. cbn [Lazy.buffer Lazy.set_buffer Lazy.buffer_size].
    rewrite len_snoc. pose proof (len_nonneg (Lazy.buffer self)).
    destruct (Z.eqb_spec (len (Lazy.buffer self) + 1)
                (Lazy.buffer_size self)); [lia|].
    rewrite IH by exact Hsize.
    cbn [Lazy.buffer Lazy.set_buffer]. now rewrite <- app_assoc.
Qed.

Lemma init_epoch_setup self :
  Lazy.same_setup (Lazy.clear_buffer (Lazy.init_epoch self)) self.
Proof.
  unfold Lazy.init_epoch, Lazy.same_setup, same_config.
  destruct (_restored_from_state (Lazy.base self)) eqn:Hr; cbn; rewrite ?Hr;
    cbn; destruct (repeat (Lazy.base self)) eqn:Hrep; cbn;
    repeat split; assumption.
Qed.

(** A lazy epoch without shuffling, with a buffer size of at least
    one. *)
Lemma lazy_epoch_bounded self :
  sort (Lazy.base self) = true \/ shuffle (Lazy.base self) = false ->
  1 <= Lazy.buffer_size self ->
  fst (Lazy.epoch sample self)
  = finished
      (flat_map (Lazy.process self)
         (batch (dataset (Lazy.base self)) (Lazy.buffer_size self) None)).
Proof.
  intros Hno Hsize. unfold Lazy.epoch.
  set (s0 := Lazy.clear_buffer (Lazy.init_epoch self)).
  pose proof (init_epoch_setup self) as Hset. fold s0 in Hset.
  assert (Hd : dataset (Lazy.base s0) = dataset (Lazy.base self))
    by apply Hset.
  rewrite Hd.
  destruct (@feed_no_shuffle self (dataset (Lazy.base self)) Hsize Hno
              s0 0 Hset) as (s1 & -> & _).
  { subst s0. cbn. lia. }
  reflexivity.
Qed.

(** X17. An epoch of a lazy iterator that does not shuffle.  The examples
    are read into buffers of [buffer_size] examples, the last one shorter
    when they run out, and each buffer is turned into batches on its own:
    sorted first when [sort] is set, cut by [batch] or, for
    [LazyBucketIterator] without [sort], by [pool], and every batch
    reordered for the caller.  With a buffer size below one there is one
    buffer, the whole source.  The epoch does not raise. *)
Theorem lazy_epoch_without_shuffling self :
  sort (Lazy.base self) = true \/ shuffle (Lazy.base self) = false ->
  raised (fst (Lazy.epoch sample self)) = None
  /\ (1 <= Lazy.buffer_size self ->
      yielded (fst (Lazy.epoch sample self))
      = flat_map (Lazy.process self)
          (batch (dataset (Lazy.base self)) (Lazy.buffer_size self) None))
  /\ (Lazy.buffer_size self <= 0 ->
      yielded (fst (Lazy.epoch sample self))
      = Lazy.process self (dataset (Lazy.base self))).
Proof.
  intro Hno.
  destruct (Z.le_gt_cases 1 (Lazy.buffer_size self)) as [Hsize|Hsize].
  { rewrite (lazy_epoch_bounded self Hno Hsize).
    cbn [raised yielded finished].
    split; [reflexivity|]. split; [reflexivity|lia]. }
  unfold Lazy.epoch.
  set (s0 := Lazy.clear_buffer (Lazy.init_epoch self)).
  pose proof (init_epoch_setup self) as Hset. fold s0 in Hset.
  assert (Hd : dataset (Lazy.base s0) = dataset (Lazy.base self))
    by apply Hset.
  rewrite Hd.
  assert (Hno0 : sort (Lazy.base s0) = true \/ shuffle (Lazy.base s0) = false).
  { destruct Hset as ((_ & _ & _ & _ & _ & _ & _ & -> & -> & _) & _).
    exact Hno. }
  assert (Hsz : Lazy.buffer_size s0 <= 0).
  { destruct Hset as (_ & _ & ->). lia. }
  rewrite (feed_unbounded _ _ Hsz).
  change (Lazy.buffer s0) with (@nil A). cbn [app].
  set (s1 := Lazy.set_buffer s0 (dataset (Lazy.base self))).
  assert (Hset1 : Lazy.same_setup s1 self) by exact Hset.
  cbn [Lazy.feed].
  destruct (0 <? len (Lazy.buffer s1)) eqn:E0.
  - destruct (consume_buffer_no_shuffle s1 Hno0) as (s2 & -> & _ & _).
    cbn [fst raised yielded finished].
    split; [reflexivity|]. split; [lia|]. intros _.
    now rewrite (process_same_setup Hset1).
  - cbn [fst raised yielded finished].
    split; [reflexivity|]. split; [lia|]. intros _.
    assert (Hnil : dataset (Lazy.base self) = []).
    { change (Lazy.buffer s1) with (dataset (Lazy.base self)) in E0.
      destruct (dataset (Lazy.base self)) as [|x l]; [reflexivity|].
      rewrite len_cons in E0. pose proof (len_nonneg l).
      apply Z.ltb_ge in E0. lia. }
    rewrite Hnil. symmetry. apply process_nil.
Qed.

Lemma flat_map_map_out {B C D} (f : C -> D) (g : B -> list C) (l : list B) :
  flat_map (fun x => map f (g x)) l = map f (flat_map g l).
Proof.
  induction l as [|x l IH]; simpl; [reflexivity|].
  now rewrite map_app, IH.
Qed.

(** X18. A [LazyIterator] whose buffer holds a whole number of batches
    yields the batches of an [Iterator].  Without sorting and shuffling,
    with the count as size and a buffer size that is a multiple of the
    batch size, as the default [batch_size * 1024] is, an epoch of the
    lazy iterator yields exactly the batches that an epoch of [Iterator]
    yields on the same examples. *)
Theorem lazy_matches_iterator self (m : Z) :
  Lazy.lazy_cls self = Lazy.LazyIteratorClass ->
  cls (Lazy.base self) = IteratorClass ->
  sort (Lazy.base self) = false ->
  shuffle (Lazy.base self) = false ->
  batch_size_fn (Lazy.base self) = None ->
  1 <= batch_size (Lazy.base self) ->
  1 <= m ->
  Lazy.buffer_size self = batch_size (Lazy.base self) * m ->
  _restored_from_state (Lazy.base self) = false ->
  yielded (fst (Lazy.epoch sample self))
  = map fst (yielded (fst (epoch sample (Lazy.base self))))
  /\ raised (fst (Lazy.epoch sample self)) = None
  /\ raised (fst (epoch sample (Lazy.base self))) = None.
Proof.
  intros Hlc Hc Hso Hsh Hfn Hcap Hm Hsize Hr.
  rewrite (lazy_epoch_bounded self (or_intror Hsh) ltac:(nia)).
  cbn [yielded raised finished].
  set (b := Lazy.base self) in *.
  set (s1 := set_random_state_this_epoch b (random_shuffler b)).
  assert (Hcb : create_batches sample s1
                = (None,
                   set_batches (set_random_shuffler s1 (random_shuffler s1))
                     (finished (batch (dataset b) (batch_size b) None)))).
  { rewrite set_random_shuffler_id. unfold create_batches, data.
    change (sort s1) with (sort b). change (shuffle s1) with (shuffle b).
    rewrite Hso, Hsh. change (cls s1) with (cls b). rewrite Hc.
    change (batch_size_fn s1) with (batch_size_fn b). now rewrite Hfn. }
  rewrite (@epoch_not_restored A RState sample b _ _ Hr Hcb).
  cbn [fst yielded raised finished]. rewrite trace_batches.
  split; [|split; reflexivity].
  assert (Hp : Lazy.process self
               = fun buf => map (reorder b) (batch buf (batch_size b) None)).
  { unfold Lazy.process. fold b. now rewrite Hlc, Hso, Hfn. }
  rewrite Hp, flat_map_map_out, Hsize, (batch_of_windows _ Hcap Hm).
  f_equal. apply reorder_same_config. unfold same_config.
  destruct (repeat b) eqn:Hrep; cbn; rewrite ?Hrep; repeat split; reflexivity.
Qed.

(** *** Coverage of a lazy epoch *)

Hypothesis sample_perm :
  forall s n, Permutation (fst (sample s n)) (seq 0 n).

Lemma concat_map_reorder (b : @Iterator A RState) (bs : list (list A)) :
  Permutation (concat (map (reorder b) bs)) (concat bs).
Proof.
  induction bs as [|mb rest IH]; simpl; [reflexivity|].
  apply Permutation_app; [apply reorder_perm|exact IH].
Qed.

Lemma prepare_buffer_ok self (s : RState) :
  random_shuffler (Lazy.base self) = Some s ->
  exists p s1,
    Lazy.prepare_buffer sample self = (None, p)
    /\ Permutation (Lazy.buffer p) (Lazy.buffer self)
    /\ Lazy.same_setup p self
    /\ random_shuffler (Lazy.base p) = Some s1
    /\ iterations (Lazy.base p) = iterations (Lazy.base self)
    /\ _iterations_this_epoch (Lazy.base p)
       = _iterations_this_epoch (Lazy.base self).
Proof.
  intro Hrs. unfold Lazy.prepare_buffer.
  destruct (sort (Lazy.base self)).
  - eexists _, s. split; [reflexivity|]. cbn.
    split; [apply sorted_perm|]. split; [now repeat split|].
    repeat split; assumption.
  - destruct (shuffle (Lazy.base self)).
    + rewrite Hrs. unfold RandomShuffler_call. rewrite length_seq.
      pose proof (sample_perm s (length (Lazy.buffer self))) as Hp.
      destruct (sample s (length (Lazy.buffer self))) as [idx s1].
      simpl in Hp. eexists _, s1. split; [reflexivity|]. cbn.
      split; [|split; [now repeat split|repeat split]].
      apply pick_perm.
      rewrite <- (length_seq 0 (length (Lazy.buffer self))) at 2.
      rewrite pick_perm; [reflexivity|]. now rewrite length_seq.
    + exists self, s. split; [reflexivity|].
      split; [reflexivity|]. split; [now repeat split|].
      repeat split; assumption.
Qed.

Lemma create_batches_ok self (s : RState) :
  random_shuffler (Lazy.base self) = Some s ->
  let c := Lazy.create_batches sample self in
  exists bs s1,
    batches (Lazy.base c) = finished bs
    /\ Permutation (concat bs) (Lazy.buffer self)
    /\ Lazy.same_setup c self
    /\ random_shuffler (Lazy.base c) = Some s1
    /\ iterations (Lazy.base c) = iterations (Lazy.base self)
    /\ _iterations_this_epoch (Lazy.base c)
       = _iterations_this_epoch (Lazy.base self).
Proof.
  intros Hrs c. subst c. unfold Lazy.create_batches.
  assert (Hplain :
            let c := Lazy.set_base self
                       (set_batches (Lazy.base self)
                          (finished (batch (Lazy.buffer self)
                                       (batch_size (Lazy.base self))
                                       (batch_size_fn (Lazy.base self))))) in
            exists bs s1,
              batches (Lazy.base c) = finished bs
              /\ Permutation (concat bs) (Lazy.buffer self)
              /\ Lazy.same_setup c self
              /\ random_shuffler (Lazy.base c) = Some s1
              /\ iterations (Lazy.base c) = iterations (Lazy.base self)
              /\ _iterations_this_epoch (Lazy.base c)
                 = _iterations_this_epoch (Lazy.base self)).
  { eexists _, s. split; [reflexivity|]. cbn.
    split; [now rewrite batch_concat|]. split; [now repeat split|].
    repeat split; assumption. }
  destruct (Lazy.lazy_cls self); [exact Hplain|].
  destruct (sort (Lazy.base self)); [exact Hplain|].
  unfold pool. rewrite Hrs.
  destruct (pool_windows_injected sample
              (batch (Lazy.buffer self)
                 (batch_size (Lazy.base self) * Lazy.buffer_size self)
                 (batch_size_fn (Lazy.base self)))
              (batch_size (Lazy.base self)) (sort_key (Lazy.base self))
              (batch_size_fn (Lazy.base self)) (shuffle (Lazy.base self))
              (sort_within_batch (Lazy.base self)) sample_perm s)
    as (bs & s' & Hpool & Hbs).
  destruct (pool_windows _ _ _ _ _ _ _ _) as [out rs].
  injection Hpool as -> ->.
  exists bs, s'. split; [reflexivity|]. cbn.
  rewrite batch_concat in Hbs. split; [exact Hbs|].
  split; [now repeat split|]. repeat split.
Qed.

Lemma len_map {B C} (f : B -> C) (l : list B) : len (map f l) = len l.
Proof. unfold len. now rewrite length_map. Qed.

Lemma consume_buffer_coverage self (s : RState) :
  random_shuffler (Lazy.base self) = Some s ->
  exists bs self' s',
    Lazy.consume_buffer sample self = (finished bs, self')
    /\ Permutation (concat bs) (Lazy.buffer self)
    /\ Lazy.same_setup self' self
    /\ random_shuffler (Lazy.base self') = Some s'
    /\ iterations (Lazy.base self') = iterations (Lazy.base self) + len bs
    /\ _iterations_this_epoch (Lazy.base self')
       = _iterations_this_epoch (Lazy.base self) + len bs.
Proof.
  intro Hrs. unfold Lazy.consume_buffer.
  destruct (prepare_buffer_ok self Hrs)
    as (p & s1 & -> & Hp & Hsp & Hrp & Hip & Htp).
  destruct (create_batches_ok p Hrp)
    as (bs & s2 & Hb & Hperm & Hsc & Hrc & Hic & Htc).
  cbv zeta in *. rewrite consume_loop_spec.
  set (c := Lazy.create_batches sample p) in *.
  change (batches (advance (Lazy.base c) (len (yielded (batches (Lazy.base c))))))
    with (batches (Lazy.base c)).
  rewrite Hb. cbn [yielded raised finished].
  eexists _, _, s2. split; [reflexivity|].
  split; [|split; [|split; [|split]]].
  - rewrite concat_map_reorder. now rewrite Hperm.
  - exact (same_setup_trans Hsc Hsp).
  - exact Hrc.
  - cbn. rewrite len_map. lia.
  - cbn. rewrite len_map. lia.
Qed.

Lemma feed_coverage (stream : list A) :
  forall self (s : RState),
    random_shuffler (Lazy.base self) = Some s ->
    exists bs self',
      Lazy.feed sample stream self = (finished bs, self')
      /\ Permutation (concat bs) (Lazy.buffer self ++ stream)
      /\ Lazy.same_setup self' self
      /\ iterations (Lazy.base self') = iterations (Lazy.base self) + len bs
      /\ _iterations_this_epoch (Lazy.base self')
         = _iterations_this_epoch (Lazy.base self) + len bs.
Proof.
  induction stream as [|ex rest IH]; intros self s Hrs.
  - cbn [Lazy.feed]. rewrite app_nil_r.
    destruct (Z.ltb_spec 0 (len (Lazy.buffer self))) as [H0|H0].
    + destruct (consume_buffer_coverage self Hrs)
        as (bs & s1 & s' & -> & Hperm & Hset & _ & Hi & Ht).
      cbn [raised finished]. exists bs, (Lazy.clear_buffer s1).
      split; [reflexivity|]. split; [exact Hperm|].
      split; [exact Hset|]. split; [exact Hi|exact Ht].
    + exists [], self. split; [reflexivity|].
      assert (Hnil : Lazy.buffer self = []).
      { destruct (Lazy.buffer self) as [|x l]; [reflexivity|].
        rewrite len_cons in H0. pose proof (len_nonneg l). lia. }
      rewrite Hnil. split; [reflexivity|]. split; [apply same_setup_refl|].
      change (len (@nil (list A))) with 0. split; lia.
  - cbn [Lazy.feed].
    set (self1 := Lazy.set_buffer self (Lazy.buffer self ++ [ex])).
    assert (Hrs1 : random_shuffler (Lazy.base self1) = Some s) by exact Hrs.
    assert (Happ : Lazy.buffer self ++ ex :: rest
                   = Lazy.buffer self1 ++ rest).
    { subst self1. cbn [Lazy.buffer Lazy.set_buffer].
      now rewrite <- app_assoc. }
    rewrite Happ.
    destruct (len (Lazy.buffer self1) =? Lazy.buffer_size self1).
    + destruct (consume_buffer_coverage self1 Hrs1)
        as (bs1 & s1 & s' & -> & Hperm & Hset & Hrs' & Hi & Ht).
      cbn [raised finished].
      destruct (IH (Lazy.clear_buffer s1) s' Hrs')
        as (bs2 & s2 & -> & Hperm2 & Hset2 & Hi2 & Ht2).
      exists (bs1 ++ bs2), s2. split; [reflexivity|].
      split; [|split; [|split]].
      * rewrite concat_app. apply Permutation_app; [exact Hperm|exact Hperm2].
      * apply (same_setup_trans Hset2). exact Hset.
      * rewrite Hi2, len_app. cbn. rewrite Hi. cbn. lia.
      * rewrite Ht2, len_app. cbn. rewrite Ht. cbn. lia.
    + destruct (IH self1 s Hrs1) as (bs & s2 & -> & Hperm & Hset & Hi & Ht).
      exists bs, s2. split; [reflexivity|]. split; [exact Hperm|].
      split; [exact Hset|]. split; [exact Hi|exact Ht].
Qed.

(** X19. A lazy epoch covers the source, also after a restore.  With a
    shuffler whose draws are permutations and a shuffler state to start
    from, an epoch of a [LazyIterator] or a [LazyBucketIterator], whatever
    its buffer size and its flags, does not raise and yields every example
    of the source exactly once.  This holds for an iterator restored from a
    checkpoint as well: unlike [Iterator], it skips no batch, and the
    restored count is only what [iterations_this_epoch] goes on from. *)
Theorem lazy_epoch_coverage self (s : RState) :
  (if _restored_from_state (Lazy.base self)
   then _random_state_this_epoch (Lazy.base self)
   else random_shuffler (Lazy.base self)) = Some s ->
  raised (fst (Lazy.epoch sample self)) = None
  /\ Permutation (concat (yielded (fst (Lazy.epoch sample self))))
       (dataset (Lazy.base self))
  /\ _iterations_this_epoch (Lazy.base (snd (Lazy.epoch sample self)))
     = (if _restored_from_state (Lazy.base self)
        then _iterations_this_epoch (Lazy.base self) else 0)
       + len (yielded (fst (Lazy.epoch sample self))).
Proof.
  intro Hrs. unfold Lazy.epoch.
  set (s0 := Lazy.clear_buffer (Lazy.init_epoch self)).
  assert (H0 : random_shuffler (Lazy.base s0) = Some s
               /\ dataset (Lazy.base s0) = dataset (Lazy.base self)
               /\ _iterations_this_epoch (Lazy.base s0)
                  = (if _restored_from_state (Lazy.base self)
                     then _iterations_this_epoch (Lazy.base self) else 0)).
  { subst s0. unfold Lazy.init_epoch.
    destruct (_restored_from_state (Lazy.base self)) eqn:Hr; cbn;
      rewrite ?Hr; cbn; destruct (repeat (Lazy.base self)); cbn;
      repeat split; assumption. }
  destruct H0 as (Hrs0 & Hd & Ht0).
  destruct (feed_coverage (dataset (Lazy.base s0)) s0 Hrs0)
    as (bs & s1 & -> & Hperm & _ & _ & Ht).
  cbn [fst snd raised yielded finished].
  split; [reflexivity|]. split.
  - rewrite Hperm. now rewrite Hd.
  - rewrite Ht. now rewrite Ht0.
Qed.

End LazyFacts.

(** ** More on the BPTT chunker *)

Lemma nth_app_repeat {B} (l : list B) (d : B) (k i : nat) :
  nth i (l ++ List.repeat d k) d = nth i l d.
Proof.
  destruct (Nat.ltb_spec i (length l)).
  - now apply app_nth1.
  - rewrite app_nth2 by assumption. rewrite nth_repeat.
    now rewrite nth_overflow by assumption.
Qed.

Lemma nth_map_seq {B} (f : nat -> B) (n i : nat) (d : B) :
  (i < n)%nat -> nth i (map f (seq 0 n)) d = f i.
Proof.
  intro Hi. rewrite (nth_indep _ d (f 0%nat))
    by (rewrite length_map, length_seq; exact Hi).
  rewrite (map_nth f). now rewrite seq_nth.
Qed.

Section BPTTMore.
Context {token : Type}.
Variable pad_token : token.
Variable numericalize : token -> Z.
Variable batch_size : Z.
Variable cur_bptt_len : Z.
Variable batch_first : bool.


(** X21. The layout of the prepared tensor.  The text, padded at its end
    to [T * batch_size] tokens, is cut in [batch_size] contiguous streams
    of [T] tokens: time step [t] of stream [b] is the token at position
    [b * T + t] of the text, or the padding token past its end. *)
Theorem prepare_text_layout (txt : list token) :
  0 < batch_size -> txt <> [] ->
  exists data,
    prepare_text pad_token numericalize batch_size txt = inr data
    /\ length data = Z.to_nat (ceil_div (len txt) batch_size)
    /\ Forall (fun row => length row = Z.to_nat batch_size) data
    /\ forall t b : nat,
        (t < length data)%nat -> (b < Z.to_nat batch_size)%nat ->
        nth b (nth t data []) 0
        = numericalize (nth (b * length data + t) txt pad_token).
Proof.
  intros HB Hne. unfold prepare_text.
  destruct (Z.eqb_spec batch_size 0); [lia|].
  destruct (Z.ltb_spec batch_size 0); [lia|]. cbn [orb].
  pose proof (ceil_div_bounds (len txt) HB) as Hc.
  set (T := ceil_div (len txt) batch_size) in *.
  assert (Hn : 1 <= len txt).
  { destruct txt; [congruence|]. rewrite len_cons.
    pose proof (len_nonneg txt). lia. }
  assert (HT : 1 <= T) by nia.
  set (padded := txt ++ List.repeat pad_token
                          (Z.to_nat (T * batch_size - len txt))).
  set (x := map numericalize padded).
  assert (Hlen : length x = (Z.to_nat T * Z.to_nat batch_size)%nat).
  { subst x padded. rewrite length_map, length_app, repeat_length.
    rewrite <- Z2Nat.inj_mul by lia. unfold len in *. lia. }
  destruct (Z.eqb_spec (len x) 0) as [E|_].
  { unfold len in E. rewrite Hlen in E. nia. }
  eexists. split; [reflexivity|].
  unfold view_t. rewrite Hlen, Nat.div_mul by lia.
  rewrite length_map, length_seq.
  split; [reflexivity|]. split.
  - apply Forall_forall. intros row Hin. apply in_map_iff in Hin.
    destruct Hin as (t & <- & _). now rewrite length_map, length_seq.
  - intros t b Ht Hb.
    rewrite (nth_map_seq
               (fun t => map (fun b => nth (b * Z.to_nat T + t) x 0)
                           (seq 0 (Z.to_nat batch_size))) [] Ht).
    rewrite (nth_map_seq (fun b => nth (b * Z.to_nat T + t) x 0) 0 Hb).
    subst x.
    rewrite (nth_indep _ 0 (numericalize pad_token))
      by (rewrite Hlen; nia).
    rewrite (map_nth numericalize). subst padded.
    now rewrite nth_app_repeat.
Qed.

(** *** The token stream of a buffer *)

Variable buffer_size : Z.




End BPTTMore.

(** *** Order within the batches of a lazy iterator *)

Section LazyOrder.
Context {A : Type}.
Variable RState : Type.
Variable sample : RState -> nat -> list nat * RState.

Implicit Types (self : @Lazy.LazyIterator A RState).






End LazyOrder.

(** ** The added properties at work on concrete inputs *)

Lemma pool_raises_iff_witness :
  raised (fst (pool example_sample [5; 3] 2 (fun x => x) None None true false
                 100)) <> None
  /\ raised (fst (pool example_sample [5; 3] 2 (fun x => x) None None true
                    false 100)) = Some TypeError
  /\ yielded (fst (pool example_sample [5; 3] 2 (fun x => x) None None true
                     false 100)) = [].
Proof.
  destruct (@pool_raises_iff Z nat example_sample [5; 3] 2 100 (fun x => x)
              None None true false) as [H1 H2].
  assert (Hr : raised (fst (pool example_sample [5; 3] 2 (fun x => x) None
                              None true false 100)) <> None).
  { apply H1. split; [reflexivity|]. split; [discriminate|now left]. }
  split; [exact Hr|exact (H2 Hr)].
Defined.


(** The checkpoint at the first yield of a run resumed, without [repeat],
    after one batch: [iterations] has started again from zero, while
    [iterations_this_epoch] goes on from the restored count. *)
Lemma epoch_counters_witness :
  let fresh := __init__ IteratorClass [10; 20; 30; 40; 50] (fun x => x) 2
                 None None true false None None None 7%nat in
  let self := snd (load_state_dict fresh
                     {| sd_iterations := Some 1;
                        sd_iterations_this_epoch := Some 1;
                        sd_random_state_this_epoch := Some (Some 1%nat) |}) in
  let sd := {| sd_iterations := Some 1;
               sd_iterations_this_epoch := Some 2;
               sd_random_state_this_epoch := Some (Some 1%nat) |} in
  0 <= _iterations_this_epoch self
  /\ nth_error (yielded (fst (epoch example_sample self))) 0
     = Some ([40; 50], sd)
  /\ sd_iterations sd = Some 1
  /\ sd_iterations_this_epoch sd = Some 2
  /\ sd_random_state_this_epoch sd = Some (Some 1%nat).
Proof.
  intros fresh self sd.
  assert (H0 : 0 <= _iterations_this_epoch self) by (simpl; lia).
  split; [exact H0|]. split; [reflexivity|].
  exact (@epoch_counters Z nat example_sample self 0 [40; 50] sd
           (fun _ => H0) eq_refl).
Defined.

Lemma counters_invariant_witness :
  let self := __init__ IteratorClass [10; 20; 30; 40; 50] (fun x => x) 2
                None None true true None None None 1%nat in
  _restored_from_state self = false
  /\ 0 <= iterations self
  /\ Forall (fun e =>
               exists i t,
                 sd_iterations (snd e) = Some i
                 /\ sd_iterations_this_epoch (snd e) = Some t
                 /\ 1 <= t <= i)
       (yielded (fst (__iter__ example_sample 2 self))).
Proof.
  intro self. split; [reflexivity|]. split; [simpl; lia|].
  apply (@counters_invariant Z nat example_sample 2 self);
    [reflexivity|simpl; lia].
Defined.

Lemma epoch_without_shuffling_witness :
  let a := __init__ BucketIteratorClass [3; 1; 2] (fun x => x) 2 None None
             false false None None None 1%nat in
  let b := set_iterations
             (__init__ BucketIteratorClass [3; 1; 2] (fun x => x) 2 None None
                false false None None None 9%nat) 6 in
  same_config a b
  /\ sort a = true
  /\ map fst (yielded (fst (epoch example_sample a)))
     = map fst (yielded (fst (epoch example_sample b)))
  /\ raised (fst (epoch example_sample a)) = None
  /\ random_shuffler (snd (epoch example_sample a)) = random_shuffler a.
Proof.
  intros a b.
  assert (Hcfg : same_config a b)
    by (unfold same_config; simpl; repeat split; reflexivity).
  split; [exact Hcfg|]. split; [reflexivity|].
  exact (@epoch_without_shuffling Z nat example_sample a b Hcfg
           (or_introl eq_refl) eq_refl eq_refl).
Defined.

Lemma state_dict_round_trip_witness :
  let self := __init__ IteratorClass [10; 20; 30] (fun x => x) 2 None None
                true false None None None 1%nat in
  let sd := {| sd_iterations := Some 4;
               sd_iterations_this_epoch := Some 2;
               sd_random_state_this_epoch := Some None |} in
  fst (load_state_dict self sd) = None
  /\ state_dict (snd (load_state_dict self sd)) = sd
  /\ _restored_from_state (snd (load_state_dict self sd)) = true
  /\ same_config (snd (load_state_dict self sd)) self
  /\ random_shuffler (snd (load_state_dict self sd)) = random_shuffler self.
Proof.
  intros self sd.
  destruct (@state_dict_round_trip Z nat self sd) as (H1 & H2 & _).
  assert (Hl : fst (load_state_dict self sd) = None).
  { apply H1. repeat split; discriminate. }
  split; [exact Hl|exact (H2 Hl)].
Defined.

(** A run resumed after one batch exports a checkpoint at its own first
    yield; a third instance that loads it yields the one batch left. *)
Lemma checkpoint_replay_resumed_witness :
  let mk := fun seed : nat =>
              __init__ IteratorClass [10; 20; 30; 40; 50] (fun x => x) 2
                None None true false None None None seed in
  let self := snd (load_state_dict (mk 7%nat)
                     {| sd_iterations := Some 1;
                        sd_iterations_this_epoch := Some 1;
                        sd_random_state_this_epoch := Some (Some 1%nat) |}) in
  let fresh := mk 3%nat in
  let sd := {| sd_iterations := Some 1;
               sd_iterations_this_epoch := Some 2;
               sd_random_state_this_epoch := Some (Some 1%nat) |} in
  _restored_from_state self = true
  /\ 0 <= _iterations_this_epoch self
  /\ same_config fresh self
  /\ nth_error (yielded (fst (epoch example_sample self))) 0
     = Some ([40; 50], sd)
  /\ exists resumed,
      load_state_dict fresh sd = (None, resumed)
      /\ map fst (yielded (fst (__iter__ example_sample 1 resumed)))
         = skipn 1 (map fst (yielded (fst (__iter__ example_sample 1 self))))
      /\ raised (fst (__iter__ example_sample 1 resumed))
         = raised (fst (__iter__ example_sample 1 self))
      /\ random_shuffler (snd (__iter__ example_sample 1 resumed))
         = random_shuffler (snd (__iter__ example_sample 1 self)).
Proof.
  intros mk self fresh sd.
  assert (Hcfg : same_config fresh self)
    by (unfold same_config; simpl; repeat split; reflexivity).
  assert (H0 : 0 <= _iterations_this_epoch self) by (simpl; lia).
  split; [reflexivity|]. split; [exact H0|]. split; [exact Hcfg|].
  split; [reflexivity|].
  exact (@checkpoint_replay_resumed Z nat example_sample self fresh 0 0
           [40; 50] sd eq_refl H0 Hcfg eq_refl).
Defined.



Lemma splits_iterators_witness :
  let datasets := [([1; 2; 3], fun x : Z => x); ([4; 5], fun x : Z => x)] in
  let kwargs := {| kw_batch_size := Some 2; kw_train := None;
                   kw_sort_key := None; kw_batch_size_fn := None;
                   kw_repeat := None; kw_shuffle := None; kw_sort := None;
                   kw_sort_within_batch := None |} in
  kw_train kwargs = None
  /\ exists ret,
      splits IteratorClass datasets None kwargs 1%nat = inr ret
      /\ length ret = 2%nat
      /\ map (@shuffle Z nat) ret = [true; false]
      /\ map (@sort Z nat) ret = [false; true].
Proof.
  intros datasets kwargs. split; [reflexivity|].
  destruct (@splits_iterators Z nat IteratorClass datasets None kwargs 1%nat
              [2; 2] eq_refl
              (or_introl (conj eq_refl
                            (ex_intro _ 2 (conj eq_refl eq_refl)))))
    as (ret & Hret & Hlen & _).
  exists ret. split; [exact Hret|]. split; [exact Hlen|].
  assert (E : inr ret = splits IteratorClass datasets None kwargs 1%nat)
    by (symmetry; exact Hret).
  injection E as ->. split; reflexivity.
Defined.

Lemma splits_raises_witness :
  let datasets := [([1; 2; 3], fun x : Z => x); ([4; 5], fun x : Z => x)] in
  let kwargs := {| kw_batch_size := None; kw_train := None;
                   kw_sort_key := None; kw_batch_size_fn := None;
                   kw_repeat := None; kw_shuffle := None; kw_sort := None;
                   kw_sort_within_batch := None |} in
  datasets <> []
  /\ (length [2] < length datasets)%nat
  /\ splits IteratorClass datasets None kwargs 1%nat
     = inl (Exn (KeyError "batch_size"%string))
  /\ splits IteratorClass datasets (Some [2]) kwargs 1%nat = inl IndexError.
Proof.
  intros datasets kwargs.
  assert (Hd : datasets <> []) by discriminate.
  assert (Hl : (length [2] < length datasets)%nat) by (simpl; lia).
  split; [exact Hd|]. split; [exact Hl|].
  split.
  - destruct (@splits_raises Z nat IteratorClass datasets None kwargs 1%nat)
      as [H _].
    exact (H eq_refl eq_refl).
  - destruct (@splits_raises Z nat IteratorClass datasets (Some [2]) kwargs
                1%nat) as [_ H].
    destruct (H Hd) as (_ & _ & H3).
    exact (H3 [2] eq_refl eq_refl eq_refl Hl).
Defined.

Lemma lazy_epoch_without_shuffling_witness :
  let self := @Lazy.__init__ Z nat Lazy.LazyIteratorClass [5; 3; 4; 1; 2]
                (fun x => x) 2 None None false false None None None (Some 3)
                1%nat in
  sort (Lazy.base self) = true
  /\ 1 <= Lazy.buffer_size self
  /\ raised (fst (Lazy.epoch example_sample self)) = None
  /\ yielded (fst (Lazy.epoch example_sample self))
     = flat_map (Lazy.process self)
         (batch (dataset (Lazy.base self)) (Lazy.buffer_size self) None).
Proof.
  intro self.
  assert (Hs : 1 <= Lazy.buffer_size self) by (simpl; lia).
  split; [reflexivity|]. split; [exact Hs|].
  destruct (@lazy_epoch_without_shuffling Z nat example_sample self
              (or_introl eq_refl)) as (H1 & H2 & _).
  split; [exact H1|exact (H2 Hs)].
Defined.

Lemma lazy_matches_iterator_witness :
  let self := @Lazy.__init__ Z nat Lazy.LazyIteratorClass [5; 3; 4; 1; 2]
                (fun x => x) 2 None None true false (Some false) (Some false)
                None None 1%nat in
  Lazy.buffer_size self = batch_size (Lazy.base self) * 1024
  /\ yielded (fst (Lazy.epoch example_sample self))
     = map fst (yielded (fst (epoch example_sample (Lazy.base self))))
  /\ raised (fst (Lazy.epoch example_sample self)) = None
  /\ raised (fst (epoch example_sample (Lazy.base self))) = None.
Proof.
  intro self. split; [reflexivity|].
  apply (@lazy_matches_iterator Z nat example_sample self 1024);
    try reflexivity; simpl; lia.
Defined.

(** A lazy bucket iterator restored from a checkpoint that counts two
    batches still yields all five examples. *)
Lemma lazy_epoch_coverage_witness :
  let self0 := @Lazy.__init__ Z nat Lazy.LazyBucketIteratorClass
                 [5; 3; 4; 1; 2] (fun x => x) 2 None None true false None
                 None None (Some 3) 1%nat in
  let self := Lazy.set_base self0
                (snd (load_state_dict (Lazy.base self0)
                        {| sd_iterations := Some 2;
                           sd_iterations_this_epoch := Some 2;
                           sd_random_state_this_epoch := Some (Some 4%nat) |}))
  in
  _restored_from_state (Lazy.base self) = true
  /\ raised (fst (Lazy.epoch example_sample self)) = None
  /\ Permutation (concat (yielded (fst (Lazy.epoch example_sample self))))
       [5; 3; 4; 1; 2]
  /\ _iterations_this_epoch (Lazy.base (snd (Lazy.epoch example_sample self)))
     = 2 + len (yielded (fst (Lazy.epoch example_sample self))).
Proof.
  intros self0 self. split; [reflexivity|].
  exact (@lazy_epoch_coverage Z nat example_sample example_sample_perm self
           4%nat eq_refl).
Defined.


Lemma prepare_text_layout_witness :
  0 < 2 /\ [1; 2; 3; 4; 5; 6; 7] <> []
  /\ exists data,
      prepare_text 0 (fun x : Z => x) 2 [1; 2; 3; 4; 5; 6; 7] = inr data
      /\ length data = 4%nat
      /\ forall t b : nat,
          (t < length data)%nat -> (b < 2)%nat ->
          nth b (nth t data []) 0
          = nth (b * length data + t) [1; 2; 3; 4; 5; 6; 7] 0.
Proof.
  assert (H2 : 0 < 2) by lia.
  assert (Hne : [1; 2; 3; 4; 5; 6; 7] <> []) by discriminate.
  split; [exact H2|]. split; [exact Hne|].
  destruct (@prepare_text_layout Z 0 (fun x : Z => x) 2
              [1; 2; 3; 4; 5; 6; 7] H2 Hne)
    as (data & Hp & Hlen & _ & Hnth).
  exists data. split; [exact Hp|]. split; [exact Hlen|exact Hnth].
Defined.


